(** * EchoContext: the per-connection context of the Echo server

    A shallow embedding of [EchoContext.c].  The context structure lives in a
    heap indexed by addresses; an [EchoContextRef] is a possibly-NULL pointer
    into that heap.  CoreFoundation is an external collaborator: every call
    the C code makes to it is recorded, in program order, in a trace together
    with the result the collaborator returned.  Those results (allocation
    outcome, bytes read, bytes written, the clock) are arguments of the
    embedded functions.  [EchoContextOpen] hands the collaborator
    [EchoContextRetain] and [EchoContextRelease] as the retain and release
    callbacks of the client context of both streams and of the timer, with
    the context as their argument; the collaborator calls the first when a
    registration is made and the second when it ends, from within the call
    that makes or ends it.  Which objects carry a registration is read off
    the trace. *)

From Stdlib Require Import ZArith QArith Lia List.
From Stdlib.Strings Require Import Byte.
From stdpp Require Import base gmap list.

Local Open Scope Z_scope.

(** ** Handles, time and bytes *)

(** Addresses of [EchoContext] structures and handles of CoreFoundation
    objects.  NULL is [None]. *)
Abbreviation addr := positive.
Abbreviation handle := positive.

Definition CFAllocatorRef := option handle.
Definition CFReadStreamRef := option handle.
Definition CFWriteStreamRef := option handle.
Definition CFRunLoopTimerRef := option handle.
Definition EchoContextRef := option addr.
Definition CFSocketNativeHandle := Z.

(** [CFAbsoluteTime] and [CFTimeInterval] are C doubles; they are modelled
    as exact rationals (seconds). *)
Definition CFAbsoluteTime := Q.
Definition CFTimeInterval := Q.

(** [CFIndex] is a signed long. *)
Definition CFIndex := Z.

(** [UInt32] arithmetic wraps modulo 2^32. *)
Definition UInt32_wrap (z : Z) : Z := z mod 2 ^ 32.

#[global] Instance byte_eq_decision : EqDecision byte := byte_eq_dec.

(** ** Type Declarations *)

Record EchoContext := mkEchoContext {
  _alloc : CFAllocatorRef;            (* Allocator used to allocate this *)
  _retainCount : Z;                   (* UInt32: number of times retained *)
  _timer : CFRunLoopTimerRef;         (* Timer for controlling timeouts *)
  _inStream : CFReadStreamRef;        (* Incoming data stream *)
  _outStream : CFWriteStreamRef;      (* Outgoing data stream *)
  _rcvdBytes : option (list byte)     (* CFMutableDataRef: received bytes *)
}.

(** [memset(context, 0, sizeof(context[0]))] *)
Definition zeroed : EchoContext :=
  mkEchoContext None 0 None None None None.

Definition set_alloc (v : CFAllocatorRef) (c : EchoContext) : EchoContext :=
  mkEchoContext v (_retainCount c) (_timer c) (_inStream c) (_outStream c) (_rcvdBytes c).
Definition set_retainCount (v : Z) (c : EchoContext) : EchoContext :=
  mkEchoContext (_alloc c) v (_timer c) (_inStream c) (_outStream c) (_rcvdBytes c).
Definition set_timer (v : CFRunLoopTimerRef) (c : EchoContext) : EchoContext :=
  mkEchoContext (_alloc c) (_retainCount c) v (_inStream c) (_outStream c) (_rcvdBytes c).
Definition set_inStream (v : CFReadStreamRef) (c : EchoContext) : EchoContext :=
  mkEchoContext (_alloc c) (_retainCount c) (_timer c) v (_outStream c) (_rcvdBytes c).
Definition set_outStream (v : CFWriteStreamRef) (c : EchoContext) : EchoContext :=
  mkEchoContext (_alloc c) (_retainCount c) (_timer c) (_inStream c) v (_rcvdBytes c).
Definition set_rcvdBytes (v : option (list byte)) (c : EchoContext) : EchoContext :=
  mkEchoContext (_alloc c) (_retainCount c) (_timer c) (_inStream c) (_outStream c) v.

(** ** Constant Definitions *)

Definition kTimeOutInSeconds : CFTimeInterval := 60%Q.

(** [CFStreamEventType], with the values of the CoreFoundation header. *)
Inductive CFStreamEventType :=
| kCFStreamEventNone
| kCFStreamEventOpenCompleted
| kCFStreamEventHasBytesAvailable
| kCFStreamEventCanAcceptBytes
| kCFStreamEventErrorOccurred
| kCFStreamEventEndEncountered.

Definition event_flag (t : CFStreamEventType) : Z :=
  match t with
  | kCFStreamEventNone => 0
  | kCFStreamEventOpenCompleted => 1
  | kCFStreamEventHasBytesAvailable => 2
  | kCFStreamEventCanAcceptBytes => 4
  | kCFStreamEventErrorOccurred => 8
  | kCFStreamEventEndEncountered => 16
  end.

Definition kReadEvents : Z :=
  Z.lor (Z.lor (event_flag kCFStreamEventHasBytesAvailable)
               (event_flag kCFStreamEventErrorOccurred))
        (event_flag kCFStreamEventEndEncountered).

Definition kWriteEvents : Z :=
  Z.lor (event_flag kCFStreamEventCanAcceptBytes)
        (event_flag kCFStreamEventErrorOccurred).

(** Size of the stack buffer of [_EchoContextHandleHasBytesAvailable]. *)
Definition sizeof_buffer : Z := 2048.

(** ** Calls to CoreFoundation *)

(** The CoreFoundation objects this file retains and releases. *)
Inductive CFTypeRef :=
| AllocatorObj (a : handle)
| ReadStreamObj (s : handle)
| WriteStreamObj (s : handle)
| TimerObj (t : handle)
| DataObj (owner : addr).

#[global] Instance CFTypeRef_eq_decision : EqDecision CFTypeRef.
Proof. solve_decision. Defined.

(** One constructor per CoreFoundation function called by the source.  Where
    a call creates an object, registers a client, asks the collaborator a
    question or transfers bytes, its last argument is the value the call
    returned; the Boolean results of the stream [Open] calls only steer
    [EchoContextOpen] and are arguments of that function. *)
Inductive Call :=
| CFAllocatorAllocate (alloc : CFAllocatorRef) (result : EchoContextRef)
| CFAllocatorDeallocate (alloc : CFAllocatorRef) (p : addr)
| CFRetain (o : CFTypeRef)
| CFRelease (o : CFTypeRef)
| CFStreamCreatePairWithSocket (sock : CFSocketNativeHandle)
    (rd : CFReadStreamRef) (wr : CFWriteStreamRef)
| CFReadStreamSetProperty (s : handle)
| CFDataCreateMutable (owner : addr) (result : bool)
| CFReadStreamSetClient (s : handle) (events : Z) (client : EchoContextRef)
    (result : bool)
| CFWriteStreamSetClient (s : handle) (events : Z) (client : EchoContextRef)
    (result : bool)
| CFReadStreamScheduleWithRunLoop (s : handle)
| CFWriteStreamScheduleWithRunLoop (s : handle)
| CFReadStreamUnscheduleFromRunLoop (s : handle)
| CFWriteStreamUnscheduleFromRunLoop (s : handle)
| CFReadStreamOpen (s : handle)
| CFWriteStreamOpen (s : handle)
| CFReadStreamClose (s : handle)
| CFWriteStreamClose (s : handle)
| CFRunLoopTimerCreate (fireDate : CFAbsoluteTime) (client : EchoContextRef)
    (result : CFRunLoopTimerRef)
| CFRunLoopAddTimer (t : handle)
| CFRunLoopTimerInvalidate (t : handle)
| CFRunLoopTimerSetNextFireDate (t : handle) (fireDate : CFAbsoluteTime)
| CFReadStreamRead (s : handle) (bufferLength : Z) (result : CFIndex)
| CFWriteStreamCanAcceptBytes (s : handle) (result : bool)
| CFWriteStreamWrite (s : handle) (bytes : list byte) (result : CFIndex).

(** ** The state and error monad *)

Record World := mkWorld {
  heap : gmap addr EchoContext;
  trace : list Call
}.

(** [Fault]: a NULL or dangling pointer is dereferenced, or a CoreFoundation
    function is handed NULL or an out-of-range argument (undefined
    behaviour in C).  [AssertFailed]: an [assert] of the source failed. *)
Inductive Res (A : Type) :=
| Ok (a : A)
| Fault
| AssertFailed.
Arguments Ok {A} a.
Arguments Fault {A}.
Arguments AssertFailed {A}.

Definition M (A : Type) : Type := World -> Res (A * World).

Definition ret {A} (a : A) : M A := fun w => Ok (a, w).

Definition bind {A B} (m : M A) (k : A -> M B) : M B :=
  fun w =>
    match m w with
    | Ok (a, w') => k a w'
    | Fault => Fault
    | AssertFailed => AssertFailed
    end.

Declare Scope echo_scope.
Delimit Scope echo_scope with echo.
Notation "x <- m ;; k" := (bind m (fun x => k))
  (at level 100, m at next level, right associativity) : echo_scope.
Notation "m ;; k" := (bind m (fun _ => k))
  (at level 100, right associativity) : echo_scope.
Local Open Scope echo_scope.

Definition fault {A} : M A := fun _ => Fault.

(** Record a call to CoreFoundation. *)
Definition call (e : Call) : M unit :=
  fun w => Ok (tt, mkWorld (heap w) (trace w ++ [e])).

(** [*context]: faults on NULL and on freed memory. *)
Definition deref (context : EchoContextRef) : M EchoContext :=
  fun w =>
    match context with
    | None => Fault
    | Some p =>
        match heap w !! p with
        | Some c => Ok (c, w)
        | None => Fault
        end
    end.

(** [context->field] *)
Definition get {A} (context : EchoContextRef) (field : EchoContext -> A) : M A :=
  c <- deref context ;; ret (field c).

(** [context->field = v] *)
Definition assign (context : EchoContextRef)
    (setter : EchoContext -> EchoContext) : M unit :=
  c <- deref context ;;
  fun w =>
    match context with
    | Some p => Ok (tt, mkWorld (<[p := setter c]> (heap w)) (trace w))
    | None => Fault
    end.

(** A CoreFoundation function applied to a reference that must not be NULL. *)
Definition nonnull {A} (r : option A) : M A :=
  match r with
  | Some a => ret a
  | None => fault
  end.

Definition assert (b : bool) : M unit :=
  if b then ret tt else fun _ => AssertFailed.

(** [memchr(s, c, n)]: offset of the first [c] among the first [n] bytes of
    [s], [None] for the NULL result. *)
Fixpoint memchr (s : list byte) (c : byte) (n : nat) : option nat :=
  match n, s with
  | S n', b :: s' =>
      if bool_decide (b = c) then Some O else S <$> memchr s' c n'
  | _, _ => None
  end.

(** The byte ['\n']. *)
Definition linefeed : byte := x0a.

(** ** Results returned by the collaborator during one event *)

(** What [CFReadStreamRead], the clock and [CFWriteStreamCanAcceptBytes]
    return during one [HasBytesAvailable] event: the number of bytes read,
    the contents of the stack buffer after the read, the current time. *)
Record ReadOutcome := mkReadOutcome {
  rd_bytesRead : CFIndex;
  rd_buffer : list byte;
  rd_now : CFAbsoluteTime;
  rd_canAccept : bool
}.

(** What the clock and [CFWriteStreamWrite] return during one flush; the
    number of bytes written is given for each requested length. *)
Record WriteOutcome := mkWriteOutcome {
  wr_now : CFAbsoluteTime;
  wr_bytesWritten : CFIndex -> CFIndex
}.

(** What the collaborator returns during [EchoContextCreate]. *)
Record CreateOutcome := mkCreateOutcome {
  cr_memory : EchoContextRef;
  cr_inStream : CFReadStreamRef;
  cr_outStream : CFWriteStreamRef;
  cr_data : bool
}.

(** What the collaborator returns during [EchoContextOpen]. *)
Record OpenOutcome := mkOpenOutcome {
  op_didSetRead : bool;
  op_didSetWrite : bool;
  op_openedRead : bool;
  op_openedWrite : bool;
  op_now : CFAbsoluteTime;
  op_timer : CFRunLoopTimerRef
}.

(** ** Memory and buffer primitives *)

(** [memset(context, 0, ...)] on freshly allocated memory. *)
Definition memset0 (p : addr) : M unit :=
  fun w => Ok (tt, mkWorld (<[p := zeroed]> (heap w)) (trace w)).

(** [CFAllocatorDeallocate(alloc, context)] *)
Definition deallocate (alloc : CFAllocatorRef) (p : addr) : M unit :=
  deref (Some p) ;;
  call (CFAllocatorDeallocate alloc p) ;;
  fun w => Ok (tt, mkWorld (delete p (heap w)) (trace w)).

(** [CFDataAppendBytes(context->_rcvdBytes, bytes, length)] *)
Definition CFDataAppendBytes (context : EchoContextRef) (bytes : list byte) : M unit :=
  rcvd <- get context _rcvdBytes ;;
  data <- nonnull rcvd ;;
  assign context (set_rcvdBytes (Some (data ++ bytes))).

(** [CFDataDeleteBytes(context->_rcvdBytes, CFRangeMake(location, length))];
    a range outside the data is a fault. *)
Definition CFDataDeleteBytes (context : EchoContextRef) (location length : CFIndex) : M unit :=
  rcvd <- get context _rcvdBytes ;;
  data <- nonnull rcvd ;;
  if bool_decide (0 <= location /\ 0 <= length /\ location + length <= Z.of_nat (List.length data))
  then assign context
         (set_rcvdBytes (Some (take (Z.to_nat location) data
                               ++ drop (Z.to_nat (location + length)) data)))
  else fault.

(** ** Registrations with the collaborator *)

(** Whether a client context is registered on a stream or a timer, after one
    more call: a successful [SetClient] with a client registers, one without
    a client unregisters; a timer is created registered and unregistered by
    its invalidation; the streams of a new pair carry no client. *)
Definition registration_step (o : CFTypeRef) (b : bool) (e : Call) : bool :=
  match e, o with
  | CFReadStreamSetClient s _ client true, ReadStreamObj s' =>
      if bool_decide (s = s') then bool_decide (is_Some client) else b
  | CFWriteStreamSetClient s _ client true, WriteStreamObj s' =>
      if bool_decide (s = s') then bool_decide (is_Some client) else b
  | CFStreamCreatePairWithSocket _ rd _, ReadStreamObj s' =>
      if bool_decide (rd = Some s') then false else b
  | CFStreamCreatePairWithSocket _ _ wr, WriteStreamObj s' =>
      if bool_decide (wr = Some s') then false else b
  | CFRunLoopTimerCreate _ client result, TimerObj t' =>
      if bool_decide (result = Some t') then bool_decide (is_Some client) else b
  | CFRunLoopTimerInvalidate t, TimerObj t' =>
      if bool_decide (t = t') then false else b
  | _, _ => b
  end.

Definition registered (o : CFTypeRef) (tr : list Call) : bool :=
  fold_left (registration_step o) tr false.

Definition is_registered (o : CFTypeRef) : M bool :=
  fun w => Ok (registered o (trace w), w).

(** A call [e] that ends the registration on [o], if there is one: the
    collaborator calls the release callback on the registered context from
    within the call.  Every registration this file makes passes the context
    that holds [o], which is the [info] here. *)
Definition unregister (release : EchoContextRef -> M unit) (o : CFTypeRef)
    (e : Call) (info : EchoContextRef) : M unit :=
  was <- is_registered o ;;
  call e ;;
  if was then release info else ret tt.

(** A call [e] that sets a client on [o]: when it succeeds the collaborator
    releases the context registered before, if any, and retains the new
    one. *)
Definition register (retain release : EchoContextRef -> M unit) (o : CFTypeRef)
    (e : Call) (result : bool) (info : EchoContextRef) : M unit :=
  was <- is_registered o ;;
  call e ;;
  if result then
    (if was then release info else ret tt) ;;
    retain info
  else ret tt.

(** ** Extern Function Definitions (API) *)

Definition EchoContextRetain (context : EchoContextRef) : M EchoContextRef :=
  (* Bump the retain count if context is good. *)
  match context with
  | Some _ =>
      n <- get context _retainCount ;;
      assign context (set_retainCount (UInt32_wrap (n + 1)))
  | None => ret tt
  end ;;
  ret context.

(** The retain callback: [EchoContextRetain], its result dropped. *)
Definition retain_callback (info : EchoContextRef) : M unit :=
  EchoContextRetain info ;; ret tt.

(** [EchoContextClose], the release callback of the client contexts being
    [release]. *)
Definition EchoContextClose_with (release : EchoContextRef -> M unit)
    (context : EchoContextRef) : M unit :=
  (* Check if the read stream exists. *)
  inStream <- get context _inStream ;;
  match inStream with
  | Some s =>
      (* Unschedule, close, and release it. *)
      unregister release (ReadStreamObj s)
        (CFReadStreamSetClient s 0 None true) context ;;
      call (CFReadStreamUnscheduleFromRunLoop s) ;;
      call (CFReadStreamClose s) ;;
      call (CFRelease (ReadStreamObj s)) ;;
      (* Remove the reference. *)
      assign context (set_inStream None)
  | None => ret tt
  end ;;
  (* Check if the write stream exists. *)
  outStream <- get context _outStream ;;
  match outStream with
  | Some s =>
      unregister release (WriteStreamObj s)
        (CFWriteStreamSetClient s 0 None true) context ;;
      call (CFWriteStreamUnscheduleFromRunLoop s) ;;
      call (CFWriteStreamClose s) ;;
      call (CFRelease (WriteStreamObj s)) ;;
      assign context (set_outStream None)
  | None => ret tt
  end ;;
  timer <- get context _timer ;;
  match timer with
  | Some t =>
      unregister release (TimerObj t) (CFRunLoopTimerInvalidate t) context ;;
      call (CFRelease (TimerObj t)) ;;
      assign context (set_timer None)
  | None => ret tt
  end.

(** [EchoContextRelease], the release callback of the client contexts being
    [release]. *)
Definition EchoContextRelease_with (release : EchoContextRef -> M unit)
    (context : EchoContextRef) : M unit :=
  match context with
  | None => ret tt
  | Some p =>
      (* Decrease the retain count. *)
      n <- get context _retainCount ;;
      assign context (set_retainCount (UInt32_wrap (n - 1))) ;;
      (* Don't dispose until the count goes to zero. *)
      n' <- get context _retainCount ;;
      if bool_decide (n' > 0) then ret tt
      else
        (* Hold locally so deallocation can happen and then safely release. *)
        alloc <- get context _alloc ;;
        (* Release the buffer if there is one. *)
        rcvd <- get context _rcvdBytes ;;
        match rcvd with
        | Some _ => call (CFRelease (DataObj p))
        | None => ret tt
        end ;;
        (* Invalidate and release the timer. *)
        timer <- get context _timer ;;
        match timer with
        | Some t =>
            unregister release (TimerObj t) (CFRunLoopTimerInvalidate t) context ;;
            call (CFRelease (TimerObj t))
        | None => ret tt
        end ;;
        (* Close the i/o streams. *)
        EchoContextClose_with release context ;;
        (* Free the memory in use by the context. *)
        deallocate alloc p ;;
        (* Release the allocator. *)
        match alloc with
        | Some a => call (CFRelease (AllocatorObj a))
        | None => ret tt
        end
  end.

(** The release callback is [EchoContextRelease] itself.  The recursion is
    unfolded to a given depth; a callback made while the context is being
    disposed of finds the count at 0 and only decrements it, so that depth 2
    is never exceeded ([EchoContextRelease_depth_enough] below). *)
Fixpoint EchoContextRelease_depth (depth : nat) (context : EchoContextRef) : M unit :=
  match depth with
  | O => fault
  | S d => EchoContextRelease_with (EchoContextRelease_depth d) context
  end.

Definition EchoContextRelease (context : EchoContextRef) : M unit :=
  EchoContextRelease_depth 2 context.

Definition EchoContextClose (context : EchoContextRef) : M unit :=
  EchoContextClose_with EchoContextRelease context.

Definition EchoContextCreate (alloc : CFAllocatorRef)
    (nativeSocket : CFSocketNativeHandle) (o : CreateOutcome) : M EchoContextRef :=
  (* Something failed, so clean up. *)
  let cleanup (context : EchoContextRef) : M EchoContextRef :=
    EchoContextRelease context ;; ret None in
  (* Allocate the buffer for the context. *)
  call (CFAllocatorAllocate alloc (cr_memory o)) ;;
  let context := cr_memory o in
  match context with
  | None => cleanup context
  | Some p =>
      memset0 p ;;
      (* Save the allocator for deallocating later. *)
      match alloc with
      | Some a => call (CFRetain (AllocatorObj a)) ;; assign context (set_alloc alloc)
      | None => ret tt
      end ;;
      (* Bump the retain count. *)
      EchoContextRetain context ;;
      (* Create the streams for the incoming socket connection. *)
      call (CFStreamCreatePairWithSocket nativeSocket (cr_inStream o) (cr_outStream o)) ;;
      assign context (set_inStream (cr_inStream o)) ;;
      assign context (set_outStream (cr_outStream o)) ;;
      (* Require both streams in order to create. *)
      inStream <- get context _inStream ;;
      outStream <- get context _outStream ;;
      match inStream, outStream with
      | Some s, Some _ =>
          (* Give up ownership of the native socket. *)
          call (CFReadStreamSetProperty s) ;;
          (* Create the receive buffer of no fixed size. *)
          call (CFDataCreateMutable p (cr_data o)) ;;
          assign context (set_rcvdBytes (if cr_data o then Some [] else None)) ;;
          (* Fail if unable to create receive buffer. *)
          rcvd <- get context _rcvdBytes ;;
          match rcvd with
          | Some _ => ret context
          | None => cleanup context
          end
      | _, _ => cleanup context
      end
  end.

Definition EchoContextOpen (context : EchoContextRef) (o : OpenOutcome) : M bool :=
  (* Something failed, so clean up. *)
  let cleanup : M bool := EchoContextClose context ;; ret false in
  (* Set the client on the read stream. *)
  inStream <- get context _inStream ;;
  rs <- nonnull inStream ;;
  register retain_callback EchoContextRelease (ReadStreamObj rs)
    (CFReadStreamSetClient rs kReadEvents context (op_didSetRead o))
    (op_didSetRead o) context ;;
  if negb (op_didSetRead o) then cleanup
  else
    (* Set the client on the write stream. *)
    outStream <- get context _outStream ;;
    ws <- nonnull outStream ;;
    register retain_callback EchoContextRelease (WriteStreamObj ws)
      (CFWriteStreamSetClient ws kWriteEvents context (op_didSetWrite o))
      (op_didSetWrite o) context ;;
    if negb (op_didSetWrite o) then cleanup
    else
      (* Schedule the streams on the current run loop and default mode. *)
      call (CFReadStreamScheduleWithRunLoop rs) ;;
      call (CFWriteStreamScheduleWithRunLoop ws) ;;
      (* Open the stream for reading. *)
      call (CFReadStreamOpen rs) ;;
      if negb (op_openedRead o) then cleanup
      else
        (* Open the stream for writing. *)
        call (CFWriteStreamOpen ws) ;;
        if negb (op_openedWrite o) then cleanup
        else
          (* Create the timeout timer *)
          call (CFRunLoopTimerCreate (op_now o + kTimeOutInSeconds)%Q context (op_timer o)) ;;
          match op_timer o with
          | Some _ => retain_callback context
          | None => ret tt
          end ;;
          assign context (set_timer (op_timer o)) ;;
          (* Fail if unable to create the timer. *)
          timer <- get context _timer ;;
          match timer with
          | None => cleanup
          | Some t => call (CFRunLoopAddTimer t) ;; ret true
          end.

(** ** Static Function Definitions *)

Definition _EchoContextHandleCanAcceptBytes (context : EchoContextRef)
    (o : WriteOutcome) : M unit :=
  (* Get the start of the buffer to send. *)
  rcvd <- get context _rcvdBytes ;;
  start <- nonnull rcvd ;;
  (* Find the linefeed if it exists. *)
  let lf := memchr start linefeed (List.length start) in
  (* Writing resets the timer. *)
  timer <- get context _timer ;;
  t <- nonnull timer ;;
  call (CFRunLoopTimerSetNextFireDate t (wr_now o + kTimeOutInSeconds)%Q) ;;
  (* If there was a linefeed, take care of sending the data. *)
  match lf with
  | Some k =>
      (* Write all of the bytes inbetween and including the linefeed. *)
      outStream <- get context _outStream ;;
      ws <- nonnull outStream ;;
      let bytesWritten := wr_bytesWritten o (Z.of_nat k + 1) in
      call (CFWriteStreamWrite ws (take (Z.to_nat (Z.of_nat k + 1)) start) bytesWritten) ;;
      (* If successfully sent the data, remove the bytes from the buffer. *)
      if bool_decide (bytesWritten > 0)
      then CFDataDeleteBytes context 0 bytesWritten
      else ret tt
  | None => ret tt
  end.

Definition _EchoContextHandleHasBytesAvailable (context : EchoContextRef)
    (r : ReadOutcome) (o : WriteOutcome) : M unit :=
  (* Try reading the bytes into the buffer. *)
  inStream <- get context _inStream ;;
  rs <- nonnull inStream ;;
  call (CFReadStreamRead rs sizeof_buffer (rd_bytesRead r)) ;;
  let bytesRead := rd_bytesRead r in
  (* Reset the timeout. *)
  timer <- get context _timer ;;
  t <- nonnull timer ;;
  call (CFRunLoopTimerSetNextFireDate t (rd_now r + kTimeOutInSeconds)%Q) ;;
  (* If there wasn't an error (-1) and not end (0), process the data. *)
  if bool_decide (bytesRead > 0) then
    (* Add the bytes of data to the receive buffer. *)
    CFDataAppendBytes context (take (Z.to_nat bytesRead) (rd_buffer r)) ;;
    (* If the ouput stream can write, try sending the bytes. *)
    outStream <- get context _outStream ;;
    ws <- nonnull outStream ;;
    call (CFWriteStreamCanAcceptBytes ws (rd_canAccept r)) ;;
    if rd_canAccept r then _EchoContextHandleCanAcceptBytes context o
    else ret tt
  else ret tt.

Definition _EchoContextHandleEndEncountered (context : EchoContextRef) : M unit :=
  (* End was hit, so destroy the context. *)
  EchoContextClose context ;;
  EchoContextRelease context.

Definition _EchoContextHandleErrorOccurred (context : EchoContextRef) : M unit :=
  (* Hit an error, so destroy the context which will close the streams. *)
  EchoContextRelease context.

Definition _EchoContextHandleTimeOut (context : EchoContextRef) : M unit :=
  (* Haven't heard from the client so kill everything. *)
  EchoContextClose context ;;
  EchoContextRelease context.

Definition _ReadStreamCallBack (inStream : CFReadStreamRef)
    (type : CFStreamEventType) (context : EchoContextRef)
    (r : ReadOutcome) (o : WriteOutcome) : M unit :=
  s <- get context _inStream ;;
  assert (bool_decide (inStream = s)) ;;
  (* Dispatch the event properly. *)
  match type with
  | kCFStreamEventHasBytesAvailable => _EchoContextHandleHasBytesAvailable context r o
  | kCFStreamEventEndEncountered => _EchoContextHandleEndEncountered context
  | kCFStreamEventErrorOccurred => _EchoContextHandleErrorOccurred context
  | _ => ret tt
  end.

Definition _WriteStreamCallBack (outStream : CFWriteStreamRef)
    (type : CFStreamEventType) (context : EchoContextRef)
    (o : WriteOutcome) : M unit :=
  s <- get context _outStream ;;
  assert (bool_decide (outStream = s)) ;;
  (* Dispatch the event properly. *)
  match type with
  | kCFStreamEventCanAcceptBytes => _EchoContextHandleCanAcceptBytes context o
  | kCFStreamEventErrorOccurred => _EchoContextHandleErrorOccurred context
  | _ => ret tt
  end.

Definition _TimerCallBack (timer : CFRunLoopTimerRef) (context : EchoContextRef) : M unit :=
  t <- get context _timer ;;
  assert (bool_decide (timer = t)) ;;
  (* Dispatch the timer event. *)
  _EchoContextHandleTimeOut context.

(** ** The reactor *)

(** An event delivered by the run loop, with the stream or timer it is
    delivered for and the results the collaborator returns while it is
    handled. *)
Inductive ReactorEvent :=
| ReadStreamEvent (inStream : CFReadStreamRef) (type : CFStreamEventType)
    (r : ReadOutcome) (o : WriteOutcome)
| WriteStreamEvent (outStream : CFWriteStreamRef) (type : CFStreamEventType)
    (o : WriteOutcome)
| TimerFired (timer : CFRunLoopTimerRef).

Definition dispatch (context : EchoContextRef) (e : ReactorEvent) : M unit :=
  match e with
  | ReadStreamEvent s type r o => _ReadStreamCallBack s type context r o
  | WriteStreamEvent s type o => _WriteStreamCallBack s type context o
  | TimerFired t => _TimerCallBack t context
  end.

(** The events of a list, handled one after the other. *)
Fixpoint run (context : EchoContextRef) (es : list ReactorEvent) : M unit :=
  match es with
  | [] => ret tt
  | e :: es' => dispatch context e ;; run context es'
  end.

(** ** Observations on a trace *)

(** The write attempts: the stream and the bytes offered, in order. *)
Fixpoint writes (tr : list Call) : list (handle * list byte) :=
  match tr with
  | [] => []
  | CFWriteStreamWrite s bytes _ :: tr' => (s, bytes) :: writes tr'
  | _ :: tr' => writes tr'
  end.

(** The bytes the outbound channel accepted, in order: of each write the
    first [result] bytes, none when the result is zero or negative. *)
Fixpoint accepted (tr : list Call) : list byte :=
  match tr with
  | [] => []
  | CFWriteStreamWrite _ bytes result :: tr' =>
      take (Z.to_nat result) bytes ++ accepted tr'
  | _ :: tr' => accepted tr'
  end.

(** The date at which timer [t] will fire next, [None] when it has not been
    created or has been invalidated. *)
Definition fire_date_step (t : handle) (d : option CFAbsoluteTime) (e : Call)
    : option CFAbsoluteTime :=
  match e with
  | CFRunLoopTimerCreate fireDate _ (Some t') =>
      if bool_decide (t' = t) then Some fireDate else d
  | CFRunLoopTimerSetNextFireDate t' fireDate =>
      if bool_decide (t' = t) then Some fireDate else d
  | CFRunLoopTimerInvalidate t' =>
      if bool_decide (t' = t) then None else d
  | _ => d
  end.

Definition fire_date (t : handle) (tr : list Call) : option CFAbsoluteTime :=
  fold_left (fire_date_step t) tr None.

(** Resources acquired from the collaborator: memory and object references. *)
Inductive Resource :=
| Memory (p : addr)
| Object (o : CFTypeRef).

#[global] Instance Resource_eq_decision : EqDecision Resource.
Proof. solve_decision. Defined.

Definition of_ref {A} (f : A -> Resource) (r : option A) : list Resource :=
  match r with
  | Some a => [f a]
  | None => []
  end.

Definition acquired (e : Call) : list Resource :=
  match e with
  | CFAllocatorAllocate _ result => of_ref Memory result
  | CFRetain o => [Object o]
  | CFStreamCreatePairWithSocket _ rd wr =>
      of_ref (fun s => Object (ReadStreamObj s)) rd
      ++ of_ref (fun s => Object (WriteStreamObj s)) wr
  | CFDataCreateMutable owner true => [Object (DataObj owner)]
  | CFRunLoopTimerCreate _ _ result => of_ref (fun t => Object (TimerObj t)) result
  | _ => []
  end.

Definition released (e : Call) : list Resource :=
  match e with
  | CFAllocatorDeallocate _ p => [Memory p]
  | CFRelease o => [Object o]
  | _ => []
  end.

(** Removal of one occurrence. *)
Fixpoint remove_one (x : Resource) (l : list Resource) : list Resource :=
  match l with
  | [] => []
  | y :: l' => if bool_decide (x = y) then l' else y :: remove_one x l'
  end.

(** The resources a trace acquired and did not give back. *)
Definition outstanding (tr : list Call) : list Resource :=
  fold_left (fun held e => fold_right remove_one (held ++ acquired e) (released e))
            tr [].

(** ** Lines *)

(** The complete lines of a byte sequence (each a maximal run up to and
    including a linefeed) and the unterminated rest. *)
Fixpoint split_lines (s : list byte) : list (list byte) * list byte :=
  match s with
  | [] => ([], [])
  | b :: s' =>
      let (ls, rest) := split_lines s' in
      if bool_decide (b = linefeed) then ([b] :: ls, rest)
      else match ls with
           | l :: ls' => ((b :: l) :: ls', rest)
           | [] => ([], b :: rest)
           end
  end.

Definition complete_lines (s : list byte) : list (list byte) := (split_lines s).1.
Definition unterminated (s : list byte) : list byte := (split_lines s).2.

(** The bytes one [HasBytesAvailable] event delivers. *)
Definition delivered_by (r : ReadOutcome) : list byte :=
  if bool_decide (rd_bytesRead r > 0)
  then take (Z.to_nat (rd_bytesRead r)) (rd_buffer r)
  else [].

Definition delivered (reads : list (ReadOutcome * WriteOutcome)) : list byte :=
  concat (map (fun ro => delivered_by ro.1) reads).

(** [CFWriteStreamWrite] never reports more bytes than it was offered. *)
Definition write_ok (o : WriteOutcome) : Prop :=
  forall len, wr_bytesWritten o len <= len.

(** The outbound channel accepts all the bytes it is offered. *)
Definition accepts_all (o : WriteOutcome) : Prop :=
  forall len, wr_bytesWritten o len = len.

(** The events of a connection: readable events, then writable events. *)
Definition readable (s : handle) (reads : list (ReadOutcome * WriteOutcome))
    : list ReactorEvent :=
  map (fun ro => ReadStreamEvent (Some s) kCFStreamEventHasBytesAvailable ro.1 ro.2) reads.

Definition writable (s : handle) (flushes : list WriteOutcome) : list ReactorEvent :=
  map (fun o => WriteStreamEvent (Some s) kCFStreamEventCanAcceptBytes o) flushes.

(** ** The effect of [EchoContextClose] and [EchoContextRelease] *)

Definition closed (c : EchoContext) : EchoContext :=
  set_timer None (set_outStream None (set_inStream None c)).

Definition timer_calls (timer : CFRunLoopTimerRef) : list Call :=
  match timer with
  | Some t => [CFRunLoopTimerInvalidate t; CFRelease (TimerObj t)]
  | None => []
  end.

Definition close_calls (c : EchoContext) : list Call :=
  match _inStream c with
  | Some s => [CFReadStreamSetClient s 0 None true; CFReadStreamUnscheduleFromRunLoop s;
               CFReadStreamClose s; CFRelease (ReadStreamObj s)]
  | None => []
  end ++
  match _outStream c with
  | Some s => [CFWriteStreamSetClient s 0 None true; CFWriteStreamUnscheduleFromRunLoop s;
               CFWriteStreamClose s; CFRelease (WriteStreamObj s)]
  | None => []
  end ++
  timer_calls (_timer c).

(** The calls of the final release of the context at [p]. *)
Definition dispose_calls (p : addr) (c : EchoContext) : list Call :=
  match _rcvdBytes c with
  | Some _ => [CFRelease (DataObj p)]
  | None => []
  end ++
  timer_calls (_timer c) ++
  close_calls c ++
  [CFAllocatorDeallocate (_alloc c) p] ++
  match _alloc c with
  | Some a => [CFRelease (AllocatorObj a)]
  | None => []
  end.

(** ** The effect of the two I/O handlers on an open context *)

(** The context is open: both streams, the timer and the receive buffer are
    present. *)
Definition is_open (c : EchoContext) (rs ws t : handle) (buf : list byte) : Prop :=
  _inStream c = Some rs /\ _outStream c = Some ws /\ _timer c = Some t
  /\ _rcvdBytes c = Some buf.

Definition flush_calls (t ws : handle) (buf : list byte) (o : WriteOutcome) : list Call :=
  CFRunLoopTimerSetNextFireDate t (wr_now o + kTimeOutInSeconds)%Q ::
  match memchr buf linefeed (length buf) with
  | Some k =>
      [CFWriteStreamWrite ws (take (Z.to_nat (Z.of_nat k + 1)) buf)
         (wr_bytesWritten o (Z.of_nat k + 1))]
  | None => []
  end.

Definition flush_rest (buf : list byte) (o : WriteOutcome) : list byte :=
  match memchr buf linefeed (length buf) with
  | Some k =>
      if bool_decide (wr_bytesWritten o (Z.of_nat k + 1) > 0)
      then drop (Z.to_nat (wr_bytesWritten o (Z.of_nat k + 1))) buf
      else buf
  | None => buf
  end.

Definition read_calls (rs t ws : handle) (buf : list byte)
    (r : ReadOutcome) (o : WriteOutcome) : list Call :=
  [CFReadStreamRead rs sizeof_buffer (rd_bytesRead r);
   CFRunLoopTimerSetNextFireDate t (rd_now r + kTimeOutInSeconds)%Q] ++
  if bool_decide (rd_bytesRead r > 0) then
    CFWriteStreamCanAcceptBytes ws (rd_canAccept r) ::
    (if rd_canAccept r then flush_calls t ws (buf ++ delivered_by r) o else [])
  else [].

Definition read_rest (buf : list byte) (r : ReadOutcome) (o : WriteOutcome) : list byte :=
  if bool_decide (rd_bytesRead r > 0) && rd_canAccept r
  then flush_rest (buf ++ delivered_by r) o
  else buf ++ delivered_by r.


(** ** Sample connections *)

(** An open context at address 1, as it is after [EchoContextCreate] and
    [EchoContextOpen] once the creator, the two stream clients and the timer
    each hold a reference: read stream 1, write stream 2, timer 3. *)
Definition sample_context (buf : list byte) : EchoContext :=
  mkEchoContext None 4 (Some 3%positive) (Some 1%positive) (Some 2%positive) (Some buf).

Definition sample_heap (buf : list byte) : gmap addr EchoContext :=
  {[ 1%positive := sample_context buf ]}.

(** The calls [EchoContextCreate] and [EchoContextOpen] make to build the
    sample context, the timer armed at time 0: the trace of an open
    connection, with its three registrations. *)
Definition sample_trace : list Call :=
  [CFAllocatorAllocate None (Some 1%positive);
   CFStreamCreatePairWithSocket 7 (Some 1%positive) (Some 2%positive);
   CFReadStreamSetProperty 1; CFDataCreateMutable 1 true;
   CFReadStreamSetClient 1 kReadEvents (Some 1%positive) true;
   CFWriteStreamSetClient 2 kWriteEvents (Some 1%positive) true;
   CFReadStreamScheduleWithRunLoop 1; CFWriteStreamScheduleWithRunLoop 2;
   CFReadStreamOpen 1; CFWriteStreamOpen 2;
   CFRunLoopTimerCreate (0 + kTimeOutInSeconds)%Q (Some 1%positive) (Some 3%positive);
   CFRunLoopAddTimer 3].

(** The channel accepts at most [n] bytes of what it is offered. *)
Definition accept_upto (now : CFAbsoluteTime) (n : Z) : WriteOutcome :=
  mkWriteOutcome now (fun len => Z.min len n).

(** The channel accepts all it is offered. *)
Definition accept_all (now : CFAbsoluteTime) : WriteOutcome :=
  mkWriteOutcome now (fun len => len).

(** A read of the given bytes into the 2048-byte stack buffer. *)
Definition read_of (bytes : list byte) (now : CFAbsoluteTime) (canAccept : bool)
    : ReadOutcome :=
  mkReadOutcome (Z.of_nat (length bytes))
    (bytes ++ replicate (2048 - length bytes) x00) now canAccept.

(** The bytes of ["hi\nthere\n"], ["hi\n"], ["there\n"] and ["abc"]. *)
Definition hi_there : list byte :=
  [x68; x69; x0a; x74; x68; x65; x72; x65; x0a].
Definition hi : list byte := [x68; x69; x0a].
Definition there : list byte := [x74; x68; x65; x72; x65; x0a].
Definition abc : list byte := [x61; x62; x63].

(** ** Counting linefeeds *)

Definition count_lf (s : list byte) : nat :=
  length (filter (fun b => b = linefeed) s).

(** A byte sequence that is empty or ends in a linefeed. *)
Definition ends_in_lf (a : list byte) : Prop :=
  a = [] \/ exists a', a = a' ++ [linefeed].

(** A line: bytes other than the linefeed, then a linefeed. *)
Definition is_line (l : list byte) : Prop :=
  exists l', l = l' ++ [linefeed] /\ linefeed ∉ l'.

(** What has been accepted ends a line, or the line being written still has
    its linefeed in the buffer. *)
Definition pending_ok (acc buf : list byte) : Prop :=
  ends_in_lf acc \/ linefeed ∈ buf.

(** ** Further observations *)

(** How many times a trace releases, and invalidates, the timer [t]. *)
Fixpoint timer_releases (t : handle) (tr : list Call) : nat :=
  match tr with
  | [] => O
  | CFRelease (TimerObj t') :: tr' =>
      if bool_decide (t' = t) then S (timer_releases t tr') else timer_releases t tr'
  | _ :: tr' => timer_releases t tr'
  end.

Fixpoint timer_invalidations (t : handle) (tr : list Call) : nat :=
  match tr with
  | [] => O
  | CFRunLoopTimerInvalidate t' :: tr' =>
      if bool_decide (t' = t) then S (timer_invalidations t tr')
      else timer_invalidations t tr'
  | _ :: tr' => timer_invalidations t tr'
  end.

(** Every step of [EchoContextOpen] succeeds. *)
Definition open_succeeds (o : OpenOutcome) : bool :=
  op_didSetRead o && op_didSetWrite o && op_openedRead o && op_openedWrite o
  && bool_decide (is_Some (op_timer o)).

(** A readable event for the read stream [rs] or a writable event for the
    write stream [ws], with a write that reports no more than it was
    offered. *)
Definition io_event (rs ws : handle) (e : ReactorEvent) : Prop :=
  match e with
  | ReadStreamEvent s kCFStreamEventHasBytesAvailable _ o => s = Some rs /\ write_ok o
  | WriteStreamEvent s kCFStreamEventCanAcceptBytes o => s = Some ws /\ write_ok o
  | _ => False
  end.

(** The bytes the readable events of a list deliver, in order. *)
Definition delivered_in (es : list ReactorEvent) : list byte :=
  concat (map (fun e =>
                 match e with
                 | ReadStreamEvent _ kCFStreamEventHasBytesAvailable r _ => delivered_by r
                 | _ => []
                 end) es).

(** ** Registrations of the objects a context holds *)

(** The count after one release callback, when there is one. *)
Definition dec_if (b : bool) (k : Z) : Z :=
  if b then UInt32_wrap (k - 1) else k.

Definition in_registered (c : EchoContext) (tr : list Call) : bool :=
  match _inStream c with
  | Some s => registered (ReadStreamObj s) tr
  | None => false
  end.

Definition out_registered (c : EchoContext) (tr : list Call) : bool :=
  match _outStream c with
  | Some s => registered (WriteStreamObj s) tr
  | None => false
  end.

Definition timer_registered (c : EchoContext) (tr : list Call) : bool :=
  match _timer c with
  | Some t => registered (TimerObj t) tr
  | None => false
  end.

(** How many of the streams and the timer of a context carry a registration,
    that is, how many references to the context the collaborator holds. *)
Definition registered_count (c : EchoContext) (tr : list Call) : Z :=
  Z.b2z (in_registered c tr) + Z.b2z (out_registered c tr)
  + Z.b2z (timer_registered c tr).

(** The count [EchoContextClose] leaves: one release callback for each
    registration. *)
Definition closed_count (c : EchoContext) (tr : list Call) : Z :=
  dec_if (timer_registered c tr)
    (dec_if (out_registered c tr)
       (dec_if (in_registered c tr) (_retainCount c))).

(** None of the release callbacks made during [EchoContextClose] brings the
    count to 0. *)
Definition close_safe (c : EchoContext) (tr : list Call) : Prop :=
  (in_registered c tr = true -> UInt32_wrap (_retainCount c - 1) > 0)
  /\ (out_registered c tr = true ->
      UInt32_wrap (dec_if (in_registered c tr) (_retainCount c) - 1) > 0)
  /\ (timer_registered c tr = true ->
      UInt32_wrap (dec_if (out_registered c tr)
                     (dec_if (in_registered c tr) (_retainCount c)) - 1) > 0).

(** A release that only decrements the count while other owners remain. *)
Definition decrements (release : EchoContextRef -> M unit) : Prop :=
  forall p c h tr,
    h !! p = Some c ->
    UInt32_wrap (_retainCount c - 1) > 0 ->
    release (Some p) (mkWorld h tr)
    = Ok (tt, mkWorld (<[p := set_retainCount (UInt32_wrap (_retainCount c - 1)) c]> h) tr).
(** * Properties *)

(** ** Running the primitives on a live context *)

Lemma get_live {A} p (f : EchoContext -> A) h tr c :
  h !! p = Some c ->
  get (Some p) f (mkWorld h tr) = Ok (f c, mkWorld h tr).
Proof. intros H. unfold get, bind, deref, ret. simpl. by rewrite H. Qed.

Lemma assign_live p g h tr c :
  h !! p = Some c ->
  assign (Some p) g (mkWorld h tr) = Ok (tt, mkWorld (<[p := g c]> h) tr).
Proof. intros H. unfold assign, bind, deref. simpl. by rewrite H. Qed.

Lemma call_run e h tr : call e (mkWorld h tr) = Ok (tt, mkWorld h (tr ++ [e])).
Proof. reflexivity. Qed.

Lemma bind_run {A B} (m : M A) (k : A -> M B) w a w' :
  m w = Ok (a, w') -> bind m k w = k a w'.
Proof. intros H. unfold bind. by rewrite H. Qed.

Lemma bind_assoc {A B C} (m : M A) (k1 : A -> M B) (k2 : B -> M C) w :
  bind (bind m k1) k2 w = bind m (fun x => bind (k1 x) k2) w.
Proof. unfold bind. destruct (m w) as [[a w']| |]; reflexivity. Qed.

Lemma set_rcvdBytes_id c b : _rcvdBytes c = Some b -> set_rcvdBytes (Some b) c = c.
Proof. destruct c; simpl; intros ->; reflexivity. Qed.

Ltac lookup_tac := first [ eassumption | apply lookup_insert_eq ].

Ltac fields :=
  cbn [_alloc _retainCount _timer _inStream _outStream _rcvdBytes
       set_alloc set_retainCount set_timer set_inStream set_outStream
       set_rcvdBytes nonnull].

(** One step of symbolic execution of a computation in a world whose heap
    holds the context. *)
Ltac step :=
  match goal with
  | |- context [bind (get (Some ?p) ?f) ?k (mkWorld ?h ?tr)] =>
      erewrite (bind_run (get (Some p) f) k (mkWorld h tr))
        by (apply get_live; lookup_tac)
  | |- context [bind (assign (Some ?p) ?g) ?k (mkWorld ?h ?tr)] =>
      erewrite (bind_run (assign (Some p) g) k (mkWorld h tr))
        by (apply assign_live; lookup_tac)
  | |- context [bind (call ?e) ?k (mkWorld ?h ?tr)] =>
      rewrite (bind_run (call e) k (mkWorld h tr) tt _ (call_run e h tr))
  | |- context [assign (Some ?p) ?g (mkWorld ?h ?tr)] =>
      erewrite (assign_live p g h tr) by lookup_tac
  | |- context [get (Some ?p) ?f (mkWorld ?h ?tr)] =>
      erewrite (get_live p f h tr) by lookup_tac
  | |- context [call ?e (mkWorld ?h ?tr)] =>
      rewrite (call_run e h tr)
  | |- context [bind (bind ?m ?k1) ?k2 ?w] =>
      rewrite (bind_assoc m k1 k2 w)
  | |- context [bind (ret ?a) ?k ?w] =>
      change (bind (ret a) k w) with (k a w)
  end;
  fields; rewrite ?insert_insert_eq, <- ?app_assoc; simpl app.

Lemma is_registered_run {B} o (k : bool -> M B) h tr :
  bind (is_registered o) k (mkWorld h tr) = k (registered o tr) (mkWorld h tr).
Proof. reflexivity. Qed.

Lemma registered_app o tr new :
  registered o (tr ++ new) = fold_left (registration_step o) new (registered o tr).
Proof. unfold registered. apply fold_left_app. Qed.

Lemma set_retainCount_id c : set_retainCount (_retainCount c) c = c.
Proof. by destruct c. Qed.

Lemma set_retainCount_twice n1 n2 c :
  set_retainCount n2 (set_retainCount n1 c) = set_retainCount n2 c.
Proof. by destruct c. Qed.

Lemma deallocate_live p c alloc h tr :
  h !! p = Some c ->
  deallocate alloc p (mkWorld h tr)
  = Ok (tt, mkWorld (delete p h) (tr ++ [CFAllocatorDeallocate alloc p])).
Proof. intros H. unfold deallocate, bind, deref. simpl. by rewrite H. Qed.

(** A release that leaves other owners only decrements the count, whatever
    the release callback is. *)
Lemma EchoContextRelease_with_decrements release :
  decrements (EchoContextRelease_with release).
Proof.
  intros p c h tr H Hn. unfold EchoContextRelease_with. repeat step.
  by rewrite bool_decide_true.
Qed.

Lemma EchoContextRelease_decrements : decrements EchoContextRelease.
Proof. apply EchoContextRelease_with_decrements. Qed.

Lemma EchoContextRelease_shared p c h tr :
  h !! p = Some c ->
  UInt32_wrap (_retainCount c - 1) > 0 ->
  EchoContextRelease (Some p) (mkWorld h tr)
  = Ok (tt, mkWorld (<[p := set_retainCount (UInt32_wrap (_retainCount c - 1)) c]> h) tr).
Proof. apply EchoContextRelease_decrements. Qed.

(** The end of a registration, on a live context that survives it. *)
Lemma unregister_live release o e p c h tr :
  decrements release -> h !! p = Some c ->
  (registered o tr = true -> UInt32_wrap (_retainCount c - 1) > 0) ->
  unregister release o e (Some p) (mkWorld h tr)
  = Ok (tt, mkWorld (<[p := set_retainCount
                             (dec_if (registered o tr) (_retainCount c)) c]> h)
                    (tr ++ [e])).
Proof.
  intros Hrel H Hsafe. unfold unregister.
  rewrite is_registered_run. step.
  destruct (registered o tr); simpl.
  - by apply Hrel; [|apply Hsafe].
  - unfold ret. by rewrite set_retainCount_id, insert_id.
Qed.


Lemma closed_idem c : closed (closed c) = closed c.
Proof. by destruct c. Qed.


(** [EchoContextClose] on a live context that survives the release
    callbacks. *)
Lemma EchoContextClose_with_live release p c h tr :
  decrements release -> h !! p = Some c -> close_safe c tr ->
  EchoContextClose_with release (Some p) (mkWorld h tr)
  = Ok (tt, mkWorld (<[p := set_retainCount (closed_count c tr) (closed c)]> h)
                    (tr ++ close_calls c)).
Proof.
  intros Hrel H (Hin & Hout & Htm).
  unfold closed_count, in_registered, out_registered, timer_registered in *.
  unfold EchoContextClose_with. step.
  destruct c as [al n tm i o b]. fields. simpl in Hin, Hout, Htm.
  set (k1 := match i with
             | Some s => dec_if (registered (ReadStreamObj s) tr) n
             | None => n
             end).
  set (c1 := mkEchoContext al k1 tm None o b).
  set (tr1 := tr ++ match i with
                    | Some s => [CFReadStreamSetClient s 0 None true;
                                 CFReadStreamUnscheduleFromRunLoop s;
                                 CFReadStreamClose s; CFRelease (ReadStreamObj s)]
                    | None => []
                    end).
  assert (E1 : (match i with
                | Some s =>
                    unregister release (ReadStreamObj s)
                      (CFReadStreamSetClient s 0 None true) (Some p) ;;
                    call (CFReadStreamUnscheduleFromRunLoop s) ;;
                    call (CFReadStreamClose s) ;;
                    call (CFRelease (ReadStreamObj s)) ;;
                    assign (Some p) (set_inStream None)
                | None => ret tt
                end) (mkWorld h tr)
               = Ok (tt, mkWorld (<[p := c1]> h) tr1)).
  { subst k1 c1 tr1. destruct i as [s|]; cbv iota.
    - erewrite bind_run by (by apply unregister_live). fields.
      repeat step. reflexivity.
    - unfold ret. by rewrite app_nil_r, insert_id. }
  erewrite bind_run by exact E1. clear E1.
  assert (Hreg_o : forall s, registered (WriteStreamObj s) tr1
                             = registered (WriteStreamObj s) tr).
  { intros s. subst tr1. rewrite registered_app. by destruct i. }
  assert (Hreg_t : forall t, registered (TimerObj t) tr1 = registered (TimerObj t) tr).
  { intros t. subst tr1. rewrite registered_app. by destruct i. }
  step. subst c1. fields.
  set (k2 := match o with
             | Some s => dec_if (registered (WriteStreamObj s) tr) k1
             | None => k1
             end).
  set (c2 := mkEchoContext al k2 tm None None b).
  set (tr2 := tr1 ++ match o with
                     | Some s => [CFWriteStreamSetClient s 0 None true;
                                  CFWriteStreamUnscheduleFromRunLoop s;
                                  CFWriteStreamClose s; CFRelease (WriteStreamObj s)]
                     | None => []
                     end).
  assert (E2 : (match o with
                | Some s =>
                    unregister release (WriteStreamObj s)
                      (CFWriteStreamSetClient s 0 None true) (Some p) ;;
                    call (CFWriteStreamUnscheduleFromRunLoop s) ;;
                    call (CFWriteStreamClose s) ;;
                    call (CFRelease (WriteStreamObj s)) ;;
                    assign (Some p) (set_outStream None)
                | None => ret tt
                end) (mkWorld (<[p := mkEchoContext al k1 tm None o b]> h) tr1)
               = Ok (tt, mkWorld (<[p := c2]> h) tr2)).
  { subst k2 c2 tr2. destruct o as [s|]; cbv iota.
    - erewrite bind_run;
        [ | apply unregister_live;
            [done | apply lookup_insert_eq
            | rewrite Hreg_o; fields; subst k1; destruct i; exact Hout] ].
      rewrite Hreg_o. fields. repeat step. reflexivity.
    - unfold ret. by rewrite app_nil_r. }
  erewrite bind_run by exact E2. clear E2.
  assert (Hreg_t2 : forall t, registered (TimerObj t) tr2 = registered (TimerObj t) tr).
  { intros t. subst tr2. rewrite registered_app, <- Hreg_t. by destruct o. }
  step. subst c2. fields.
  unfold closed, close_calls. fields. subst tr2 tr1.
  destruct tm as [t|].
  - erewrite bind_run;
      [ | apply unregister_live;
          [done | apply lookup_insert_eq
          | rewrite Hreg_t2; fields; subst k2 k1; destruct i, o; exact Htm] ].
    rewrite Hreg_t2. fields. repeat step.
    subst k2 k1. destruct i, o; simpl; rewrite ?app_nil_r; reflexivity.
  - unfold ret. subst k2 k1.
    destruct i, o; simpl; rewrite ?app_nil_r, <- ?app_assoc; reflexivity.
Qed.

(** The caller holds a reference of its own besides those of the
    collaborator: no callback disposes of the context. *)
Lemma close_safe_owned c tr :
  registered_count c tr < _retainCount c < 2 ^ 32 ->
  close_safe c tr /\ closed_count c tr = _retainCount c - registered_count c tr.
Proof.
  unfold close_safe, closed_count, registered_count, dec_if, UInt32_wrap.
  intros Hn.
  destruct (in_registered c tr), (out_registered c tr), (timer_registered c tr);
    simpl in *;
    repeat match goal with
           | |- context [(?x - 1) mod 2 ^ 32] =>
               rewrite (Z.mod_small (x - 1)) by lia
           end;
    (split; [repeat split; intros; try done; lia | lia]).
Qed.

(** A context that is being disposed of: its count is 0, or just below
    2^32 after the release callback of the timer. *)
Lemma close_safe_dying c tr :
  _retainCount c = 0 \/ _retainCount c = 2 ^ 32 - 1 -> close_safe c tr.
Proof.
  unfold close_safe, dec_if. intros [-> | ->];
    destruct (in_registered c tr), (out_registered c tr);
    repeat split; intros; by vm_compute.
Qed.

(** The final release disposes of the context, with the same calls and the
    same heap whatever registrations it still carries. *)
Lemma EchoContextRelease_with_final release p c h tr :
  decrements release ->
  h !! p = Some c ->
  ~ UInt32_wrap (_retainCount c - 1) > 0 ->
  EchoContextRelease_with release (Some p) (mkWorld h tr)
  = Ok (tt, mkWorld (delete p h) (tr ++ dispose_calls p c)).
Proof.
  intros Hrel H Hn.
  assert (Hz : UInt32_wrap (_retainCount c - 1) = 0).
  { unfold UInt32_wrap in *.
    pose proof (Z.mod_pos_bound (_retainCount c - 1) (2 ^ 32)). lia. }
  unfold EchoContextRelease_with. repeat step.
  rewrite bool_decide_false by done. repeat step. rewrite Hz.
  set (c0 := set_retainCount 0 c).
  assert (Hclose : forall c1 tr',
            _retainCount c1 = 0 \/ _retainCount c1 = 2 ^ 32 - 1 ->
            (EchoContextClose_with release (Some p) ;; deallocate (_alloc c) p ;;
             match _alloc c with
             | Some a => call (CFRelease (AllocatorObj a))
             | None => ret tt
             end) (mkWorld (<[p := c1]> h) tr')
            = Ok (tt, mkWorld (delete p h)
                    (tr' ++ close_calls c1 ++ [CFAllocatorDeallocate (_alloc c) p]
                         ++ match _alloc c with
                            | Some a => [CFRelease (AllocatorObj a)]
                            | None => []
                            end))).
  { intros c1 tr' Hk.
    erewrite bind_run;
      [ | apply EchoContextClose_with_live;
          [done | apply lookup_insert_eq | by apply close_safe_dying] ].
    rewrite insert_insert_eq.
    erewrite bind_run by (eapply deallocate_live; apply lookup_insert_eq).
    rewrite delete_insert_eq, <- app_assoc.
    destruct (_alloc c); [step|unfold ret]; by rewrite ?app_nil_r. }
  unfold dispose_calls.
  destruct (_rcvdBytes c) eqn:Hb, (_timer c) as [t|] eqn:Ht;
    subst c0; fields; rewrite ?Hb, ?Ht; repeat (step; rewrite ?Hb, ?Ht).
  - erewrite bind_run;
      [ | apply unregister_live;
          [done | apply lookup_insert_eq | intros _; by vm_compute] ].
    fields. repeat step. rewrite set_retainCount_twice.
    rewrite Hclose.
    + replace (close_calls (set_retainCount _ c)) with (close_calls c)
        by (by destruct c).
      simpl. by rewrite <- ?app_assoc.
    + fields. unfold dec_if. destruct (registered _ _); [right|left]; by vm_compute.
  - rewrite Hclose.
    + replace (close_calls (set_retainCount 0 c)) with (close_calls c)
        by (by destruct c).
      simpl. by rewrite <- ?app_assoc.
    + by left.
  - erewrite bind_run;
      [ | apply unregister_live;
          [done | apply lookup_insert_eq | intros _; by vm_compute] ].
    fields. repeat step. rewrite set_retainCount_twice.
    rewrite Hclose.
    + replace (close_calls (set_retainCount _ c)) with (close_calls c)
        by (by destruct c).
      simpl. by rewrite <- ?app_assoc.
    + fields. unfold dec_if. destruct (registered _ _); [right|left]; by vm_compute.
  - rewrite Hclose.
    + replace (close_calls (set_retainCount 0 c)) with (close_calls c)
        by (by destruct c).
      simpl. by rewrite <- ?app_assoc.
    + by left.
Qed.

Lemma EchoContextRelease_final p c h tr :
  h !! p = Some c ->
  ~ UInt32_wrap (_retainCount c - 1) > 0 ->
  EchoContextRelease (Some p) (mkWorld h tr)
  = Ok (tt, mkWorld (delete p h) (tr ++ dispose_calls p c)).
Proof.
  apply EchoContextRelease_with_final, EchoContextRelease_with_decrements.
Qed.

(** The recursion through the release callback never goes deeper than 2:
    unfolding it further changes no result. *)
Lemma EchoContextRelease_depth_enough d context w :
  EchoContextRelease_depth (2 + d) context w = EchoContextRelease context w.
Proof.
  unfold EchoContextRelease. destruct context as [p|]; [|done].
  destruct w as [h tr]. cbn [Nat.add EchoContextRelease_depth].
  destruct (h !! p) as [c|] eqn:H.
  - destruct (decide (UInt32_wrap (_retainCount c - 1) > 0)) as [Hn|Hn].
    + by rewrite !(EchoContextRelease_with_decrements _ p c h tr H Hn).
    + rewrite !(EchoContextRelease_with_final _ p c h tr); try done;
        apply EchoContextRelease_with_decrements.
  - unfold EchoContextRelease_with, get, bind, deref. simpl. by rewrite H.
Qed.

(** [EchoContextRelease] is its own release callback. *)
Lemma EchoContextRelease_callback context w :
  EchoContextRelease context w
  = EchoContextRelease_with EchoContextRelease context w.
Proof. symmetry. apply (EchoContextRelease_depth_enough 1). Qed.

Lemma EchoContextClose_live p c h tr :
  h !! p = Some c -> close_safe c tr ->
  EchoContextClose (Some p) (mkWorld h tr)
  = Ok (tt, mkWorld (<[p := set_retainCount (closed_count c tr) (closed c)]> h)
                    (tr ++ close_calls c)).
Proof.
  intros H Hs. apply EchoContextClose_with_live; [|done|done].
  apply EchoContextRelease_decrements.
Qed.





(** ** [memchr] finds the first linefeed *)

Lemma memchr_None (s : list byte) c : memchr s c (length s) = None <-> c ∉ s.
Proof.
  induction s as [|b s IH]; simpl.
  - split; [intros _; apply not_elem_of_nil | done].
  - case_bool_decide as Hb.
    + subst b. split; [done | intros Hn; destruct Hn; left].
    + rewrite fmap_None, IH, not_elem_of_cons. intuition congruence.
Qed.

Lemma memchr_Some (s : list byte) c k :
  memchr s c (length s) = Some k <->
  s !! k = Some c /\ forall j, (j < k)%nat -> s !! j <> Some c.
Proof.
  revert k. induction s as [|b s IH]; intros k; simpl.
  - split; [done | by intros [? _]].
  - case_bool_decide as Hb.
    + subst b. split.
      * intros [= <-]. split; [done | lia].
      * intros [Hk Hj]. destruct k as [|k]; [done|].
        destruct (Hj O); [lia | done].
    + rewrite fmap_Some. split.
      * intros (k' & Hk' & ->). apply IH in Hk' as [Hk' Hj]. split; [done|].
        intros [|j] Hlt; simpl; [congruence | apply Hj; lia].
      * intros [Hk Hj]. destruct k as [|k]; simpl in Hk; [congruence|].
        exists k. split; [|done]. apply IH. split; [done|].
        intros j Hlt. apply (Hj (S j)). lia.
Qed.

Lemma memchr_lt (s : list byte) c k :
  memchr s c (length s) = Some k -> (k < length s)%nat.
Proof. intros H. apply memchr_Some in H as [H _]. by apply lookup_lt_Some in H. Qed.

(** ** Running the two I/O handlers on an open context *)

Lemma is_open_set_rcvdBytes c rs ws t buf buf' :
  is_open c rs ws t buf -> is_open (set_rcvdBytes (Some buf') c) rs ws t buf'.
Proof. unfold is_open. destruct c; simpl. intuition congruence. Qed.

Lemma CanAcceptBytes_live p c rs ws t buf h tr o :
  h !! p = Some c -> is_open c rs ws t buf -> write_ok o ->
  _EchoContextHandleCanAcceptBytes (Some p) o (mkWorld h tr)
  = Ok (tt, mkWorld (<[p := set_rcvdBytes (Some (flush_rest buf o)) c]> h)
                    (tr ++ flush_calls t ws buf o)).
Proof.
  intros H (Hi & Ho & Ht & Hb) Hw.
  unfold _EchoContextHandleCanAcceptBytes, flush_calls, flush_rest.
  step. rewrite Hb. fields. repeat step. rewrite Ht. fields. repeat step.
  destruct (memchr buf linefeed (length buf)) as [k|] eqn:Hk.
  - step. rewrite Ho. fields. repeat step.
    case_bool_decide as Hpos.
    + unfold CFDataDeleteBytes. step. rewrite Hb. fields. step.
      apply memchr_lt in Hk. specialize (Hw (Z.of_nat k + 1)).
      rewrite bool_decide_true by lia. step.
      by rewrite Z.add_0_l.
    + unfold ret. by rewrite (set_rcvdBytes_id _ _ Hb), insert_id.
  - unfold ret. by rewrite (set_rcvdBytes_id _ _ Hb), insert_id.
Qed.

Lemma HasBytesAvailable_live p c rs ws t buf h tr r o :
  h !! p = Some c -> is_open c rs ws t buf -> write_ok o ->
  _EchoContextHandleHasBytesAvailable (Some p) r o (mkWorld h tr)
  = Ok (tt, mkWorld (<[p := set_rcvdBytes (Some (read_rest buf r o)) c]> h)
                    (tr ++ read_calls rs t ws buf r o)).
Proof.
  intros H Hopen Hw. pose proof Hopen as (Hi & Ho & Ht & Hb).
  unfold _EchoContextHandleHasBytesAvailable, read_calls, read_rest, delivered_by.
  step. rewrite Hi. fields. repeat step. rewrite Ht. fields. repeat step.
  case_bool_decide as Hpos; simpl.
  - unfold CFDataAppendBytes. rewrite bind_assoc. step. rewrite Hb. fields.
    repeat step. rewrite Ho. fields. repeat step.
    destruct (rd_canAccept r).
    + erewrite CanAcceptBytes_live;
        [ | apply lookup_insert_eq | by eapply is_open_set_rcvdBytes | done ].
      by rewrite insert_insert_eq, <- app_assoc.
    + reflexivity.
  - unfold ret. by rewrite app_nil_r, (set_rcvdBytes_id _ _ Hb), insert_id.
Qed.

(** ** What one flush offers, what is accepted and what is left *)

Lemma writes_flush_calls t ws buf o :
  writes (flush_calls t ws buf o)
  = match memchr buf linefeed (length buf) with
    | Some k => [(ws, take (k + 1) buf)]
    | None => []
    end.
Proof.
  unfold flush_calls. simpl.
  destruct (memchr buf linefeed (length buf)) as [k|]; [|done].
  simpl. by replace (Z.to_nat (Z.of_nat k + 1)) with (k + 1)%nat by lia.
Qed.

Lemma accepted_flush_calls t ws buf o :
  write_ok o ->
  accepted (flush_calls t ws buf o)
  = match memchr buf linefeed (length buf) with
    | Some k => take (Z.to_nat (wr_bytesWritten o (Z.of_nat k + 1))) buf
    | None => []
    end.
Proof.
  intros Hw. unfold flush_calls. simpl.
  destruct (memchr buf linefeed (length buf)) as [k|]; [|done].
  simpl. rewrite app_nil_r, take_take. f_equal.
  specialize (Hw (Z.of_nat k + 1)). lia.
Qed.

(** No byte is lost or duplicated by a flush. *)
Lemma flush_conserves t ws buf o :
  write_ok o ->
  accepted (flush_calls t ws buf o) ++ flush_rest buf o = buf.
Proof.
  intros Hw. rewrite accepted_flush_calls by done. unfold flush_rest.
  destruct (memchr buf linefeed (length buf)) as [k|]; [|done].
  case_bool_decide.
  - apply take_drop.
  - by replace (Z.to_nat _) with O by lia.
Qed.

Lemma take_first_line (buf : list byte) k :
  buf !! k = Some linefeed ->
  length (take (k + 1) buf) = (k + 1)%nat
  /\ take (k + 1) buf = take k buf ++ [linefeed].
Proof.
  intros Hk. split.
  - apply lookup_lt_Some in Hk. rewrite length_take. lia.
  - rewrite Nat.add_1_r. by apply take_S_r.
Qed.

(** C2. Flush per-invocation contract: one invocation of the flush on an
    open context writes nothing when the buffer holds no linefeed; when the
    first linefeed is at offset [k] it makes exactly one write attempt, of
    the [k + 1] bytes at offsets [0..k] (the line with its terminator, the
    single byte ['\n'] when [k = 0]), whatever else the buffer holds. *)
Theorem flush_writes_one_line p c rs ws t buf h tr o :
  h !! p = Some c -> is_open c rs ws t buf -> write_ok o ->
  exists w' new,
    _EchoContextHandleCanAcceptBytes (Some p) o (mkWorld h tr) = Ok (tt, w')
    /\ trace w' = tr ++ new
    /\ (linefeed ∉ buf -> writes new = [])
    /\ (forall k,
          buf !! k = Some linefeed ->
          (forall j, (j < k)%nat -> buf !! j <> Some linefeed) ->
          writes new = [(ws, take (k + 1) buf)]
          /\ length (take (k + 1) buf) = (k + 1)%nat
          /\ take (k + 1) buf = take k buf ++ [linefeed]
          /\ (k = O -> writes new = [(ws, [linefeed])])).
Proof.
  intros H Hopen Hw.
  eexists _, (flush_calls t ws buf o).
  split; [by eapply CanAcceptBytes_live|].
  split; [done|]. rewrite writes_flush_calls. split.
  - intros Hn. apply memchr_None in Hn. by rewrite Hn.
  - intros k Hk Hj.
    assert (Hm : memchr buf linefeed (length buf) = Some k)
      by (by apply memchr_Some).
    rewrite Hm. destruct (take_first_line buf k Hk) as [Hlen Htake].
    repeat split; try done.
    intros ->. by rewrite Htake.
Qed.

Lemma flush_writes_one_line_witness :
  exists w' new,
    _EchoContextHandleCanAcceptBytes (Some 1%positive) (accept_all 5%Q)
      (mkWorld (sample_heap hi_there) []) = Ok (tt, w')
    /\ trace w' = [] ++ new
    /\ (linefeed ∉ hi_there -> writes new = [])
    /\ (forall k,
          hi_there !! k = Some linefeed ->
          (forall j, (j < k)%nat -> hi_there !! j <> Some linefeed) ->
          writes new = [(2%positive, take (k + 1) hi_there)]
          /\ length (take (k + 1) hi_there) = (k + 1)%nat
          /\ take (k + 1) hi_there = take k hi_there ++ [linefeed]
          /\ (k = O -> writes new = [(2%positive, [linefeed])])).
Proof.
  apply (flush_writes_one_line 1%positive (sample_context hi_there)
           1%positive 2%positive 3%positive hi_there
           (sample_heap hi_there) [] (accept_all 5%Q)).
  - reflexivity.
  - repeat split.
  - intros len. simpl. lia.
Defined.

(** After a short write the first linefeed of what is left is the one of
    the line that was being written. *)
Lemma memchr_drop (buf : list byte) k n :
  memchr buf linefeed (length buf) = Some k -> (n <= k)%nat ->
  memchr (drop n buf) linefeed (length (drop n buf)) = Some (k - n)%nat.
Proof.
  intros Hk Hn. apply memchr_Some in Hk as [Hk Hj]. apply memchr_Some. split.
  - rewrite lookup_drop. by replace (n + (k - n))%nat with k by lia.
  - intros j Hlt. rewrite lookup_drop. apply Hj. lia.
Qed.

(** C3. Buffer prefix truncation: a flush on an open context changes
    nothing but the receive buffer, and the buffer only by removing from its
    front the bytes the outbound channel accepted.  The heap is unchanged
    when the buffer holds no linefeed or the write reports zero or a
    negative number; when the write reports [written > 0] exactly the first
    [written] bytes are removed, the unwritten rest of the line stays at the
    front of the buffer and is what the next flush offers. *)
Theorem flush_removes_accepted_prefix p c rs ws t buf h tr o :
  h !! p = Some c -> is_open c rs ws t buf -> write_ok o ->
  exists h' new buf',
    _EchoContextHandleCanAcceptBytes (Some p) o (mkWorld h tr)
      = Ok (tt, mkWorld h' (tr ++ new))
    /\ h' = <[p := set_rcvdBytes (Some buf') c]> h
    /\ accepted new ++ buf' = buf
    /\ (linefeed ∉ buf -> accepted new = [] /\ h' = h)
    /\ (forall k,
          buf !! k = Some linefeed ->
          (forall j, (j < k)%nat -> buf !! j <> Some linefeed) ->
          let written := wr_bytesWritten o (Z.of_nat k + 1) in
          (written <= 0 -> accepted new = [] /\ h' = h)
          /\ (written > 0 ->
                accepted new = take (Z.to_nat written) buf
                /\ length (accepted new) = Z.to_nat written
                /\ buf' = drop (Z.to_nat written) buf
                /\ take (k + 1) buf
                   = accepted new ++ take (k + 1 - Z.to_nat written) buf'
                /\ (written < Z.of_nat k + 1 ->
                    forall o' tr', write_ok o' ->
                    exists w'' new',
                      _EchoContextHandleCanAcceptBytes (Some p) o' (mkWorld h' tr')
                        = Ok (tt, w'')
                      /\ trace w'' = tr' ++ new'
                      /\ writes new'
                         = [(ws, take (k + 1 - Z.to_nat written) buf')]))).
Proof.
  intros H Hopen Hw. pose proof Hopen as (_ & _ & _ & Hb).
  exists (<[p := set_rcvdBytes (Some (flush_rest buf o)) c]> h),
         (flush_calls t ws buf o), (flush_rest buf o).
  split; [by eapply CanAcceptBytes_live|].
  split; [done|].
  split; [by apply flush_conserves|].
  rewrite accepted_flush_calls by done. unfold flush_rest. split.
  - intros Hn. apply memchr_None in Hn. rewrite Hn.
    by rewrite (set_rcvdBytes_id _ _ Hb), insert_id.
  - intros k Hk Hj. cbv zeta.
    set (written := wr_bytesWritten o (Z.of_nat k + 1)).
    assert (Hm : memchr buf linefeed (length buf) = Some k)
      by (by apply memchr_Some).
    rewrite Hm. fold written.
    pose proof (memchr_lt _ _ _ Hm) as Hlt.
    pose proof (Hw (Z.of_nat k + 1)) as Hle. fold written in Hle.
    split.
    + intros Hz. rewrite bool_decide_false by lia.
      replace (Z.to_nat written) with O by lia.
      by rewrite (set_rcvdBytes_id _ _ Hb), insert_id.
    + intros Hpos. rewrite bool_decide_true by done.
      split; [done|]. split; [rewrite length_take; lia|]. split; [done|].
      split.
      { rewrite take_take_drop. f_equal. lia. }
      intros Hshort o' tr' Hw'.
      eexists _, (flush_calls t ws (drop (Z.to_nat written) buf) o').
      split.
      { eapply CanAcceptBytes_live;
          [apply lookup_insert_eq | by eapply is_open_set_rcvdBytes | done]. }
      split; [done|].
      rewrite writes_flush_calls.
      rewrite (memchr_drop buf k (Z.to_nat written)) by (done || lia).
      do 3 f_equal. lia.
Qed.

Lemma flush_removes_accepted_prefix_witness :
  exists h' new buf',
    _EchoContextHandleCanAcceptBytes (Some 1%positive) (accept_upto 5%Q 2)
      (mkWorld (sample_heap hi_there) []) = Ok (tt, mkWorld h' ([] ++ new))
    /\ h' = <[1%positive := set_rcvdBytes (Some buf') (sample_context hi_there)]>
              (sample_heap hi_there)
    /\ accepted new ++ buf' = hi_there
    /\ (linefeed ∉ hi_there -> accepted new = [] /\ h' = sample_heap hi_there)
    /\ (forall k,
          hi_there !! k = Some linefeed ->
          (forall j, (j < k)%nat -> hi_there !! j <> Some linefeed) ->
          let written := wr_bytesWritten (accept_upto 5%Q 2) (Z.of_nat k + 1) in
          (written <= 0 -> accepted new = [] /\ h' = sample_heap hi_there)
          /\ (written > 0 ->
                accepted new = take (Z.to_nat written) hi_there
                /\ length (accepted new) = Z.to_nat written
                /\ buf' = drop (Z.to_nat written) hi_there
                /\ take (k + 1) hi_there
                   = accepted new ++ take (k + 1 - Z.to_nat written) buf'
                /\ (written < Z.of_nat k + 1 ->
                    forall o' tr', write_ok o' ->
                    exists w'' new',
                      _EchoContextHandleCanAcceptBytes (Some 1%positive) o'
                        (mkWorld h' tr') = Ok (tt, w'')
                      /\ trace w'' = tr' ++ new'
                      /\ writes new'
                         = [(2%positive, take (k + 1 - Z.to_nat written) buf')]))).
Proof.
  apply (flush_removes_accepted_prefix 1%positive (sample_context hi_there)
           1%positive 2%positive 3%positive hi_there
           (sample_heap hi_there) [] (accept_upto 5%Q 2)).
  - reflexivity.
  - repeat split.
  - intros len. simpl. lia.
Defined.

(** ** The public interface on NULL, on a closed context, at count zero *)

(** C10. Null-argument asymmetry: [EchoContextRetain] and
    [EchoContextRelease] do nothing on a NULL context, and [Retain] returns
    its argument; [EchoContextClose] dereferences its argument, which
    faults on NULL, while on a live context in which the caller holds a
    reference of its own it returns normally. *)
Theorem null_context_asymmetry (w : World) :
  EchoContextRetain None w = Ok (None, w)
  /\ EchoContextRelease None w = Ok (tt, w)
  /\ EchoContextClose None w = Fault
  /\ (forall context r w', EchoContextRetain context w = Ok (r, w') -> r = context)
  /\ (forall p c,
        heap w !! p = Some c ->
        registered_count c (trace w) < _retainCount c < 2 ^ 32 ->
        exists w', EchoContextClose (Some p) w = Ok (tt, w')).
Proof.
  repeat split.
  - intros context r w'. unfold EchoContextRetain, bind, ret.
    destruct context as [p|]; [|congruence].
    destruct (get _ _ w) as [[n w1]| |]; try done.
    destruct (assign _ _ w1) as [[[] w2]| |]; try done. congruence.
  - intros p c Hc Hn. destruct w as [h tr]. simpl in *.
    eexists. apply EchoContextClose_live; [done|].
    by apply close_safe_owned.
Qed.



(** C9, as the code has it. A release of a live context whose count is
    already 0 is not guarded: the unsigned count wraps to 2^32 - 1, the
    function returns normally, the context is not deallocated and no call
    to the collaborator is made. *)
Theorem release_at_zero_wraps p c h tr :
  h !! p = Some c -> _retainCount c = 0 ->
  EchoContextRelease (Some p) (mkWorld h tr)
  = Ok (tt, mkWorld (<[p := set_retainCount (2 ^ 32 - 1) c]> h) tr).
Proof.
  intros H Hz.
  rewrite (EchoContextRelease_shared p c h tr H); rewrite Hz; done.
Qed.

Lemma release_at_zero_wraps_witness :
  EchoContextRelease (Some 1%positive) (mkWorld {[ 1%positive := zeroed ]} [])
  = Ok (tt, mkWorld (<[1%positive := set_retainCount (2 ^ 32 - 1) zeroed]>
                       {[ 1%positive := zeroed ]}) []).
Proof.
  apply (release_at_zero_wraps 1%positive zeroed {[ 1%positive := zeroed ]} []);
    reflexivity.
Defined.

(** C9 with an assertion guarding the release does not hold of the code:
    on the context that [EchoContextCreate] has just zeroed (count 0) a
    release does not stop at an assertion; it returns normally with the
    count at 4294967295 and the context still allocated. *)
Lemma release_at_zero_not_detected :
  EchoContextRelease (Some 1%positive) (mkWorld {[ 1%positive := zeroed ]} [])
    <> AssertFailed
  /\ exists w',
      EchoContextRelease (Some 1%positive) (mkWorld {[ 1%positive := zeroed ]} [])
        = Ok (tt, w')
      /\ (_retainCount <$> heap w' !! 1%positive) = Some 4294967295
      /\ trace w' = [].
Proof.
  rewrite (EchoContextRelease_shared 1%positive zeroed) by done.
  split; [done|]. eexists. split; [done|]. split; [|done].
  simpl. by rewrite lookup_insert_eq.
Qed.

(** ** Teardown events *)

Lemma writes_app tr1 tr2 : writes (tr1 ++ tr2) = writes tr1 ++ writes tr2.
Proof.
  induction tr1 as [|e tr1 IH]; [done|].
  destruct e; simpl; by rewrite ?IH.
Qed.


Lemma writes_dispose_calls p c : writes (dispose_calls p c) = [].
Proof. by destruct c as [[?|] ? [?|] [?|] [?|] [?|]]. Qed.

(** The two handlers that close and then release. *)
Lemma close_then_release_live p c h tr :
  h !! p = Some c -> close_safe c tr ->
  (EchoContextClose (Some p) ;; EchoContextRelease (Some p)) (mkWorld h tr)
  = Ok (tt,
        if bool_decide (UInt32_wrap (closed_count c tr - 1) > 0)
        then mkWorld (<[p := set_retainCount (UInt32_wrap (closed_count c tr - 1))
                               (closed c)]> h)
                     (tr ++ close_calls c)
        else mkWorld (delete p h)
                     (tr ++ close_calls c ++ dispose_calls p (closed c))).
Proof.
  intros H Hs.
  erewrite bind_run by (by apply EchoContextClose_live).
  case_bool_decide as Hpos.
  - erewrite EchoContextRelease_shared; [ | apply lookup_insert_eq | done ].
    by rewrite insert_insert_eq, set_retainCount_twice.
  - erewrite EchoContextRelease_final; [ | apply lookup_insert_eq | done ].
    rewrite delete_insert_eq, <- app_assoc.
    by replace (dispose_calls p (set_retainCount _ (closed c)))
      with (dispose_calls p (closed c)) by (by destruct c).
Qed.



(** C5, what the code does. An [ErrorOccurred] event, from the read stream
    or from the write stream, on the open sample context (count 4) only
    decrements the count: no call to the collaborator is made, and both
    streams and the timer stay registered and open. *)
Theorem error_event_only_releases :
  let w := mkWorld (sample_heap hi) [] in
  let w' := mkWorld {[ 1%positive := set_retainCount 3 (sample_context hi) ]} [] in
  _ReadStreamCallBack (Some 1%positive) kCFStreamEventErrorOccurred
    (Some 1%positive) (read_of [] 7%Q true) (accept_all 7%Q) w = Ok (tt, w')
  /\ _WriteStreamCallBack (Some 2%positive) kCFStreamEventErrorOccurred
       (Some 1%positive) (accept_all 7%Q) w = Ok (tt, w')
  /\ _EchoContextHandleErrorOccurred (Some 1%positive) w
     <> (EchoContextClose (Some 1%positive) ;; EchoContextRelease (Some 1%positive)) w
  /\ is_open (set_retainCount 3 (sample_context hi)) 1 2 3 hi.
Proof. vm_compute. repeat split. congruence. Qed.

(** ** Creation *)

Lemma memset0_run {B} p (k : unit -> M B) h tr :
  bind (memset0 p) k (mkWorld h tr) = k tt (mkWorld (<[p := zeroed]> h) tr).
Proof. reflexivity. Qed.

(** C7. Create postconditions: with memory that is fresh when the allocator
    returns some, [EchoContextCreate] either returns the new context, whose
    count is 1, whose streams are the pair wrapped from the socket and whose
    receive buffer is allocated and empty, or returns NULL with the heap as
    it was and every resource it had acquired given back; it returns NULL
    exactly when the allocation of the context, a stream of the pair or the
    receive buffer fails. *)
Theorem create_postconditions alloc nativeSocket o h tr :
  (forall p, cr_memory o = Some p -> h !! p = None) ->
  exists r h' new,
    EchoContextCreate alloc nativeSocket o (mkWorld h tr)
      = Ok (r, mkWorld h' (tr ++ new))
    /\ match r with
       | Some p =>
           cr_memory o = Some p
           /\ exists c,
               h' = <[p := c]> h
               /\ _retainCount c = 1
               /\ _inStream c = cr_inStream o /\ is_Some (_inStream c)
               /\ _outStream c = cr_outStream o /\ is_Some (_outStream c)
               /\ _rcvdBytes c = Some []
               /\ _timer c = None /\ _alloc c = alloc
               /\ CFStreamCreatePairWithSocket nativeSocket
                    (_inStream c) (_outStream c) ∈ new
       | None => h' = h /\ outstanding new = []
       end
    /\ (r = None <->
        cr_memory o = None \/ cr_inStream o = None \/ cr_outStream o = None
        \/ cr_data o = false).
Proof.
  intros Hfresh. destruct o as [[p|] rd wr data]; simpl in *.
  2:{ exists None, h, [CFAllocatorAllocate alloc None].
      split; [reflexivity|]. repeat split; auto. }
  specialize (Hfresh p eq_refl).
  unfold EchoContextCreate. cbn [cr_memory cr_inStream cr_outStream cr_data].
  step. rewrite memset0_run.
  assert (Hz : (<[p := zeroed]> h) !! p = Some zeroed) by apply lookup_insert_eq.
  assert (Hfail : forall c tr' (P : Prop),
            UInt32_wrap (_retainCount c - 1) = 0 -> P ->
            outstanding (tr' ++ dispose_calls p c) = [] ->
            exists r h' new,
              (EchoContextRelease (Some p) ;; ret None)
                (mkWorld (<[p := c]> h) (tr ++ tr'))
              = Ok (r, mkWorld h' (tr ++ new))
              /\ match r with
                 | Some p0 =>
                     Some p = Some p0
                     /\ exists c0,
                         h' = <[p0 := c0]> h
                         /\ _retainCount c0 = 1
                         /\ _inStream c0 = rd /\ is_Some (_inStream c0)
                         /\ _outStream c0 = wr /\ is_Some (_outStream c0)
                         /\ _rcvdBytes c0 = Some []
                         /\ _timer c0 = None /\ _alloc c0 = alloc
                         /\ CFStreamCreatePairWithSocket nativeSocket
                              (_inStream c0) (_outStream c0) ∈ new
                 | None => h' = h /\ outstanding new = []
                 end
              /\ (r = None <-> P)).
  { intros c tr' P Hn HP Hout.
    exists None, h, (tr' ++ dispose_calls p c).
    erewrite bind_run;
      [ | apply EchoContextRelease_final;
          [apply lookup_insert_eq | rewrite Hn; lia] ].
    rewrite delete_insert_id, <- app_assoc by done.
    unfold ret. repeat split; auto. }
  unfold outstanding in Hfail.
  destruct alloc as [a|]; repeat step; unfold EchoContextRetain;
    repeat step; change (UInt32_wrap (0 + 1)) with 1;
    destruct rd as [s|], wr as [s'|]; fields; repeat step;
    try (destruct data; fields; repeat step);
    try (apply Hfail; [ done | tauto | ];
         unfold dispose_calls, close_calls, timer_calls; simpl;
         repeat (progress (rewrite ?bool_decide_true by done; simpl));
         done).
  all: eexists (Some p), _, _; unfold ret; split; [reflexivity|];
    split; [split; [done|]; eexists; repeat split; eauto;
            fields; rewrite !elem_of_cons; tauto|];
    split; [done|]; intros [?|[?|[?|?]]]; done.
Qed.

Lemma create_postconditions_witness :
  exists r h' new,
    EchoContextCreate None 7 (mkCreateOutcome (Some 1%positive)
                                (Some 1%positive) (Some 2%positive) true)
      (mkWorld ∅ []) = Ok (r, mkWorld h' ([] ++ new))
    /\ match r with
       | Some p =>
           Some 1%positive = Some p
           /\ exists c,
               h' = <[p := c]> ∅
               /\ _retainCount c = 1
               /\ _inStream c = Some 1%positive /\ is_Some (_inStream c)
               /\ _outStream c = Some 2%positive /\ is_Some (_outStream c)
               /\ _rcvdBytes c = Some []
               /\ _timer c = None /\ _alloc c = None
               /\ CFStreamCreatePairWithSocket 7 (_inStream c) (_outStream c) ∈ new
       | None => h' = ∅ /\ outstanding new = []
       end
    /\ (r = None <->
        Some 1%positive = None \/ Some 1%positive = None
        \/ Some 2%positive = None \/ true = false).
Proof.
  apply (create_postconditions None 7
           (mkCreateOutcome (Some 1%positive) (Some 1%positive)
              (Some 2%positive) true) ∅ []).
  intros p _. reflexivity.
Defined.

(** ** The idle timer *)

Lemma fire_date_app t tr new :
  fire_date t (tr ++ new) = fold_left (fire_date_step t) new (fire_date t tr).
Proof. unfold fire_date. apply fold_left_app. Qed.

Lemma fire_date_flush_calls t ws buf o d :
  fold_left (fire_date_step t) (flush_calls t ws buf o) d
  = Some (wr_now o + kTimeOutInSeconds)%Q.
Proof.
  unfold flush_calls. simpl. rewrite (bool_decide_true (t = t)) by done.
  by destruct (memchr buf linefeed (length buf)).
Qed.

Lemma fire_date_read_calls rs t ws buf r o d :
  fold_left (fire_date_step t) (read_calls rs t ws buf r o) d
  = Some (if bool_decide (rd_bytesRead r > 0) && rd_canAccept r
          then (wr_now o + kTimeOutInSeconds)%Q
          else (rd_now r + kTimeOutInSeconds)%Q).
Proof.
  unfold read_calls. simpl. rewrite (bool_decide_true (t = t)) by done.
  case_bool_decide; simpl; [|done].
  destruct (rd_canAccept r); [|done].
  apply fire_date_flush_calls.
Qed.

Lemma ReadStreamCallBack_HasBytesAvailable p c rs ws t buf h tr r o :
  h !! p = Some c -> is_open c rs ws t buf ->
  _ReadStreamCallBack (Some rs) kCFStreamEventHasBytesAvailable (Some p) r o
    (mkWorld h tr)
  = _EchoContextHandleHasBytesAvailable (Some p) r o (mkWorld h tr).
Proof.
  intros H (Hi & _). unfold _ReadStreamCallBack. step. rewrite Hi.
  by rewrite bool_decide_true.
Qed.

Lemma WriteStreamCallBack_CanAcceptBytes p c rs ws t buf h tr o :
  h !! p = Some c -> is_open c rs ws t buf ->
  _WriteStreamCallBack (Some ws) kCFStreamEventCanAcceptBytes (Some p) o
    (mkWorld h tr)
  = _EchoContextHandleCanAcceptBytes (Some p) o (mkWorld h tr).
Proof.
  intros H (_ & Ho & _). unfold _WriteStreamCallBack. step. rewrite Ho.
  by rewrite bool_decide_true.
Qed.

(** C4, as the code has it. Timeout reset: every [HasBytesAvailable] event
    and every [CanAcceptBytes] event on an open context reschedules the
    idle timer to the current time plus [kTimeOutInSeconds], whether or not
    any byte is read or written during the event; the date is taken from
    the last reading of the clock in the handler (the one of the flush when
    the read handler goes on to flush). *)
Theorem timer_reset_on_every_io_event p c rs ws t buf h tr r o :
  h !! p = Some c -> is_open c rs ws t buf -> write_ok o ->
  (exists w',
     _ReadStreamCallBack (Some rs) kCFStreamEventHasBytesAvailable (Some p) r o
       (mkWorld h tr) = Ok (tt, w')
     /\ fire_date t (trace w')
        = Some (if bool_decide (rd_bytesRead r > 0) && rd_canAccept r
                then (wr_now o + kTimeOutInSeconds)%Q
                else (rd_now r + kTimeOutInSeconds)%Q))
  /\ (exists w',
        _WriteStreamCallBack (Some ws) kCFStreamEventCanAcceptBytes (Some p) o
          (mkWorld h tr) = Ok (tt, w')
        /\ fire_date t (trace w') = Some (wr_now o + kTimeOutInSeconds)%Q).
Proof.
  intros H Hopen Hw. split; eexists.
  - erewrite ReadStreamCallBack_HasBytesAvailable by done.
    split; [by eapply HasBytesAvailable_live|].
    cbn [trace]. by rewrite fire_date_app, fire_date_read_calls.
  - erewrite WriteStreamCallBack_CanAcceptBytes by done.
    split; [by eapply CanAcceptBytes_live|].
    cbn [trace]. by rewrite fire_date_app, fire_date_flush_calls.
Qed.

Lemma timer_reset_on_every_io_event_witness :
  (exists w',
     _ReadStreamCallBack (Some 1%positive) kCFStreamEventHasBytesAvailable
       (Some 1%positive) (read_of hi 10%Q true) (accept_all 11%Q)
       (mkWorld (sample_heap []) []) = Ok (tt, w')
     /\ fire_date 3%positive (trace w')
        = Some (if bool_decide (rd_bytesRead (read_of hi 10%Q true) > 0)
                   && rd_canAccept (read_of hi 10%Q true)
                then (wr_now (accept_all 11%Q) + kTimeOutInSeconds)%Q
                else (rd_now (read_of hi 10%Q true) + kTimeOutInSeconds)%Q))
  /\ (exists w',
        _WriteStreamCallBack (Some 2%positive) kCFStreamEventCanAcceptBytes
          (Some 1%positive) (accept_all 11%Q)
          (mkWorld (sample_heap []) []) = Ok (tt, w')
        /\ fire_date 3%positive (trace w')
           = Some (wr_now (accept_all 11%Q) + kTimeOutInSeconds)%Q).
Proof.
  apply (timer_reset_on_every_io_event 1%positive (sample_context [])
           1%positive 2%positive 3%positive [] (sample_heap []) []
           (read_of hi 10%Q true) (accept_all 11%Q)).
  - reflexivity.
  - repeat split.
  - intros len. simpl. lia.
Defined.

(** C4 with a reset on productive I/O only does not hold of the code.
    The timer of the open sample
    context was armed at time 0 to fire at 60.  At time 30 a
    [HasBytesAvailable] event whose read returns 0 bytes, and likewise a
    [CanAcceptBytes] event while the buffer holds ["abc"] and no linefeed,
    leave the context as it was and write nothing, yet move the fire date
    from 60 to 90. *)
Lemma idle_event_extends_timeout :
  let armed := [CFRunLoopTimerCreate 60%Q (Some 1%positive) (Some 3%positive)] in
  let w := mkWorld (sample_heap abc) armed in
  let idle_read := mkReadOutcome 0 (replicate 2048 x00) 30%Q true in
  fire_date 3%positive (trace w) = Some 60%Q
  /\ (exists w',
        _ReadStreamCallBack (Some 1%positive) kCFStreamEventHasBytesAvailable
          (Some 1%positive) idle_read (accept_all 30%Q) w = Ok (tt, w')
        /\ delivered_by idle_read = []
        /\ heap w' = heap w /\ writes (trace w') = []
        /\ fire_date 3%positive (trace w') = Some 90%Q
        /\ fire_date 3%positive (trace w') <> fire_date 3%positive (trace w))
  /\ (exists w',
        _WriteStreamCallBack (Some 2%positive) kCFStreamEventCanAcceptBytes
          (Some 1%positive) (accept_all 30%Q) w = Ok (tt, w')
        /\ heap w' = heap w /\ writes (trace w') = []
        /\ fire_date 3%positive (trace w') = Some 90%Q
        /\ fire_date 3%positive (trace w') <> fire_date 3%positive (trace w))
  /\ ~ (90 == 60)%Q.
Proof.
  cbv zeta. split; [reflexivity|]. split; [|split].
  - eexists. split; [vm_compute; reflexivity|]. vm_compute. by repeat split.
  - eexists. split; [vm_compute; reflexivity|]. vm_compute. by repeat split.
  - by vm_compute.
Qed.

(** ** Lines of a byte sequence *)

Lemma split_lines_cons b s :
  split_lines (b :: s)
  = if bool_decide (b = linefeed) then ([b] :: complete_lines s, unterminated s)
    else match complete_lines s with
         | l :: ls' => ((b :: l) :: ls', unterminated s)
         | [] => ([], b :: unterminated s)
         end.
Proof.
  unfold complete_lines, unterminated. simpl.
  by destruct (split_lines s) as [ls rest].
Qed.

(** The complete lines followed by the unterminated rest are the input. *)
Lemma split_lines_concat s : concat (complete_lines s) ++ unterminated s = s.
Proof.
  induction s as [|b s IH]; [done|].
  unfold complete_lines, unterminated in *. rewrite split_lines_cons.
  unfold complete_lines, unterminated.
  destruct (split_lines s) as [ls rest]. simpl in *.
  case_bool_decide; simpl; [by rewrite IH|].
  destruct ls as [|l ls']; simpl in *; by rewrite IH.
Qed.

Lemma unterminated_no_lf s : linefeed ∉ unterminated s.
Proof.
  induction s as [|b s IH]; [apply not_elem_of_nil|].
  unfold unterminated in *. rewrite split_lines_cons.
  unfold complete_lines, unterminated.
  destruct (split_lines s) as [ls rest]. simpl in *.
  case_bool_decide; simpl; [done|].
  destruct ls as [|l ls']; simpl; [|done].
  rewrite not_elem_of_cons. split; [congruence | done].
Qed.

(** Each complete line is a maximal run ending in a linefeed. *)
Lemma complete_lines_are_lines s : Forall is_line (complete_lines s).
Proof.
  induction s as [|b s IH]; [constructor|].
  unfold complete_lines in *. rewrite split_lines_cons.
  unfold complete_lines, unterminated.
  destruct (split_lines s) as [ls rest]. simpl in *.
  case_bool_decide as Hb; simpl.
  - constructor; [|done]. exists []. subst b. split; [done|apply not_elem_of_nil].
  - destruct ls as [|l ls']; simpl; [constructor|].
    inversion IH as [|? ? (l' & -> & Hl') Hls]; subst.
    constructor; [|done]. exists (b :: l'). split; [done|].
    rewrite not_elem_of_cons. split; [congruence | done].
Qed.

Lemma split_lines_no_lf s : linefeed ∉ s -> split_lines s = ([], s).
Proof.
  induction s as [|b s IH]; [done|].
  rewrite not_elem_of_cons. intros [Hb Hs].
  rewrite split_lines_cons. unfold complete_lines, unterminated.
  rewrite (IH Hs). simpl. by rewrite bool_decide_false by congruence.
Qed.

(** The split is determined: a prefix that is empty or ends in a linefeed,
    followed by bytes without linefeed, is the complete lines and the rest. *)
Lemma split_lines_unique a r :
  ends_in_lf a -> linefeed ∉ r ->
  concat (complete_lines (a ++ r)) = a /\ unterminated (a ++ r) = r.
Proof.
  intros [->|[a' ->]] Hr.
  - unfold complete_lines, unterminated. simpl. by rewrite (split_lines_no_lf r Hr).
  - rewrite <- app_assoc. simpl.
    induction a' as [|b a' IH].
    + simpl. unfold complete_lines, unterminated. rewrite split_lines_cons.
      unfold complete_lines, unterminated.
      by rewrite (split_lines_no_lf r Hr).
    + destruct IH as [IHc IHu]. simpl.
      unfold complete_lines, unterminated in *. rewrite split_lines_cons.
      unfold complete_lines, unterminated.
      destruct (split_lines (a' ++ linefeed :: r)) as [ls rest]. simpl in *.
      case_bool_decide; simpl; [by rewrite IHc|].
      destruct ls as [|l ls']; simpl in *.
      * by destruct a'.
      * by rewrite IHc.
Qed.

Lemma count_lf_app a b : count_lf (a ++ b) = (count_lf a + count_lf b)%nat.
Proof. unfold count_lf. by rewrite filter_app, length_app. Qed.

Lemma count_lf_zero s : count_lf s = O -> linefeed ∉ s.
Proof.
  unfold count_lf. intros H Hin.
  assert (Hf : linefeed ∈ filter (fun b => b = linefeed) s)
    by (by apply list_elem_of_filter).
  destruct (filter _ s); [by apply not_elem_of_nil in Hf | done].
Qed.

(** There are as many complete lines as linefeeds. *)
Lemma length_complete_lines s : length (complete_lines s) = count_lf s.
Proof.
  induction s as [|b s IH]; [done|].
  unfold complete_lines in *. rewrite split_lines_cons.
  unfold complete_lines, unterminated, count_lf in *.
  destruct (split_lines s) as [ls rest]. simpl in *.
  case_bool_decide as Hb.
  - rewrite filter_cons_True by done. simpl. by rewrite IH.
  - rewrite filter_cons_False by done. rewrite <- IH. by destruct ls.
Qed.

Lemma count_lf_no_lf s : linefeed ∉ s -> count_lf s = O.
Proof.
  induction s as [|b s IH]; [done|].
  rewrite not_elem_of_cons. intros [Hb Hs]. unfold count_lf in *.
  rewrite filter_cons_False by congruence. by apply IH.
Qed.

(** ** Echo: the bytes accepted by the outbound channel *)

Lemma accepted_app tr1 tr2 : accepted (tr1 ++ tr2) = accepted tr1 ++ accepted tr2.
Proof.
  induction tr1 as [|e tr1 IH]; [done|].
  destruct e; simpl; rewrite ?IH; try done. by rewrite app_assoc.
Qed.

Lemma accepted_read_calls rs t ws buf r o :
  accepted (read_calls rs t ws buf r o)
  = if bool_decide (rd_bytesRead r > 0) && rd_canAccept r
    then accepted (flush_calls t ws (buf ++ delivered_by r) o)
    else [].
Proof.
  unfold read_calls. simpl. case_bool_decide; [|done].
  by destruct (rd_canAccept r).
Qed.

Lemma set_rcvdBytes_twice b1 b2 c :
  set_rcvdBytes b2 (set_rcvdBytes b1 c) = set_rcvdBytes b2 c.
Proof. by destruct c. Qed.

Lemma flush_pending_ok t ws buf o acc :
  write_ok o -> pending_ok acc buf ->
  pending_ok (acc ++ accepted (flush_calls t ws buf o)) (flush_rest buf o).
Proof.
  intros Hw HJ. rewrite accepted_flush_calls by done. unfold flush_rest.
  destruct (memchr buf linefeed (length buf)) as [k|] eqn:Hm;
    [|by rewrite app_nil_r].
  pose proof (Hw (Z.of_nat k + 1)) as Hle.
  set (written := wr_bytesWritten o (Z.of_nat k + 1)) in *.
  case_bool_decide as Hpos.
  - destruct (decide (written = Z.of_nat k + 1)) as [Hall|Hshort].
    + left. right. exists (acc ++ take k buf).
      apply memchr_Some in Hm as [Hk _].
      replace (Z.to_nat written) with (S k) by lia.
      by rewrite (take_S_r _ _ _ Hk), app_assoc.
    + right. apply list_elem_of_lookup. exists (k - Z.to_nat written)%nat.
      apply memchr_Some.
      apply (memchr_drop buf k (Z.to_nat written)); [done | lia].
  - replace (Z.to_nat written) with O by lia. simpl. by rewrite app_nil_r.
Qed.

Lemma append_pending_ok acc buf data :
  pending_ok acc buf -> pending_ok acc (buf ++ data).
Proof. intros [?|?]; [by left | right; apply elem_of_app; by left]. Qed.

(** One readable event conserves the bytes and keeps lines whole. *)
Lemma read_summary rs t ws buf r o :
  write_ok o ->
  accepted (read_calls rs t ws buf r o) ++ read_rest buf r o
    = buf ++ delivered_by r
  /\ (forall acc, pending_ok acc buf ->
        pending_ok (acc ++ accepted (read_calls rs t ws buf r o))
                   (read_rest buf r o)).
Proof.
  intros Hw. rewrite accepted_read_calls. unfold read_rest.
  destruct (bool_decide (rd_bytesRead r > 0) && rd_canAccept r).
  - split; [by apply flush_conserves|].
    intros acc HJ. apply flush_pending_ok; [done|]. by apply append_pending_ok.
  - split; [done|]. intros acc HJ. rewrite app_nil_r. by apply append_pending_ok.
Qed.

Lemma run_app context es1 es2 w :
  run context (es1 ++ es2) w = (run context es1 ;; run context es2) w.
Proof.
  revert w. induction es1 as [|e es1 IH]; intros w; [done|].
  simpl. rewrite bind_assoc. unfold bind at 1 2.
  destruct (dispatch context e w) as [[[] w1]| |]; [apply IH | done | done].
Qed.

(** The readable events: what was accepted, followed by what is buffered,
    is what was delivered. *)
Lemma run_readable p rs ws t reads :
  Forall (fun ro => write_ok ro.2) reads ->
  forall c h tr buf,
    h !! p = Some c -> is_open c rs ws t buf ->
    exists new buf',
      run (Some p) (readable rs reads) (mkWorld h tr)
        = Ok (tt, mkWorld (<[p := set_rcvdBytes (Some buf') c]> h) (tr ++ new))
      /\ accepted new ++ buf' = buf ++ delivered reads
      /\ (forall acc, pending_ok acc buf -> pending_ok (acc ++ accepted new) buf').
Proof.
  induction 1 as [|[r o] reads Hw _ IH]; intros c h tr buf H Hopen.
  - exists [], buf. pose proof Hopen as (_ & _ & _ & Hb).
    simpl. unfold ret, delivered. simpl.
    rewrite !app_nil_r, (set_rcvdBytes_id _ _ Hb), insert_id by done.
    split; [done|]. split; [done|]. intros acc. by rewrite app_nil_r.
  - simpl in Hw. destruct (read_summary rs t ws buf r o Hw) as [Hcons HJ].
    destruct (IH (set_rcvdBytes (Some (read_rest buf r o)) c)
                 (<[p := set_rcvdBytes (Some (read_rest buf r o)) c]> h)
                 (tr ++ read_calls rs t ws buf r o)
                 (read_rest buf r o))
      as (new & buf' & Hrun & Hacc & HJ');
      [apply lookup_insert_eq | by eapply is_open_set_rcvdBytes |].
    exists (read_calls rs t ws buf r o ++ new), buf'.
    split; [|split].
    + cbn [readable map run dispatch fst snd].
      erewrite bind_run;
        [ | erewrite ReadStreamCallBack_HasBytesAvailable by done;
            by eapply HasBytesAvailable_live ].
      fold (readable rs reads). rewrite Hrun.
      by rewrite insert_insert_eq, set_rcvdBytes_twice, app_assoc.
    + rewrite accepted_app, <- app_assoc, Hacc, app_assoc, Hcons.
      unfold delivered. simpl. by rewrite app_assoc.
    + intros acc Hp. rewrite accepted_app, app_assoc. apply HJ'. by apply HJ.
Qed.

Lemma accepts_all_write_ok o : accepts_all o -> write_ok o.
Proof. intros H len. rewrite H. lia. Qed.

(** A flush on which the channel accepts everything removes a whole line. *)
Lemma flush_all_count buf o :
  accepts_all o -> (count_lf (flush_rest buf o) <= pred (count_lf buf))%nat.
Proof.
  intros Ha. unfold flush_rest.
  destruct (memchr buf linefeed (length buf)) as [k|] eqn:Hm.
  - rewrite Ha, bool_decide_true by lia.
    replace (Z.to_nat (Z.of_nat k + 1)) with (S k) by lia.
    apply memchr_Some in Hm as [Hk _].
    rewrite <- (take_drop (S k) buf) at 2.
    rewrite count_lf_app, (take_S_r _ _ _ Hk), count_lf_app.
    change (count_lf [linefeed]) with 1%nat. lia.
  - apply memchr_None in Hm. rewrite (count_lf_no_lf _ Hm). lia.
Qed.

(** The writable events, the channel accepting everything: once there have
    been as many as there are linefeeds in the buffer, no linefeed is left. *)
Lemma run_writable p rs ws t flushes :
  Forall accepts_all flushes ->
  forall c h tr buf,
    h !! p = Some c -> is_open c rs ws t buf ->
    (count_lf buf <= length flushes)%nat ->
    exists new buf',
      run (Some p) (writable ws flushes) (mkWorld h tr)
        = Ok (tt, mkWorld (<[p := set_rcvdBytes (Some buf') c]> h) (tr ++ new))
      /\ accepted new ++ buf' = buf
      /\ (linefeed ∉ buf')
      /\ (forall acc, pending_ok acc buf -> pending_ok (acc ++ accepted new) buf').
Proof.
  induction 1 as [|o flushes Ha _ IH]; intros c h tr buf H Hopen Hcount.
  - exists [], buf. pose proof Hopen as (_ & _ & _ & Hb).
    simpl. unfold ret.
    rewrite !app_nil_r, (set_rcvdBytes_id _ _ Hb), insert_id by done.
    split; [done|]. split; [done|].
    split; [apply count_lf_zero; simpl in Hcount; lia|].
    intros acc. by rewrite app_nil_r.
  - pose proof (accepts_all_write_ok o Ha) as Hw.
    pose proof (flush_all_count buf o Ha) as Hdec.
    destruct (IH (set_rcvdBytes (Some (flush_rest buf o)) c)
                 (<[p := set_rcvdBytes (Some (flush_rest buf o)) c]> h)
                 (tr ++ flush_calls t ws buf o)
                 (flush_rest buf o))
      as (new & buf' & Hrun & Hacc & Hno & HJ');
      [apply lookup_insert_eq | by eapply is_open_set_rcvdBytes
      | simpl in Hcount; lia |].
    exists (flush_calls t ws buf o ++ new), buf'.
    split; [|split; [|split; [done|]]].
    + cbn [writable map run dispatch].
      erewrite bind_run;
        [ | erewrite WriteStreamCallBack_CanAcceptBytes by done;
            by eapply CanAcceptBytes_live ].
      fold (writable ws flushes). rewrite Hrun.
      by rewrite insert_insert_eq, set_rcvdBytes_twice, app_assoc.
    + rewrite accepted_app, <- app_assoc, Hacc. by apply flush_conserves.
    + intros acc Hp. rewrite accepted_app, app_assoc. apply HJ'.
      by apply flush_pending_ok.
Qed.

(** C1. Echo correctness: on an open context with an empty receive buffer,
    for any bytes delivered in any number of [HasBytesAvailable] events
    (each followed by a flush when the outbound channel can accept bytes,
    the channel accepting any part of what it is offered), followed by at
    least as many [CanAcceptBytes] events as the input has complete lines,
    on which the channel accepts all it is offered, the bytes accepted by
    the outbound channel are exactly the complete lines of the input, byte
    for byte, in order, each once; the unterminated rest stays in the
    buffer. *)
Theorem echo_correctness p c rs ws t h tr reads flushes :
  h !! p = Some c -> is_open c rs ws t [] ->
  Forall (fun ro => write_ok ro.2) reads ->
  Forall accepts_all flushes ->
  (length (complete_lines (delivered reads)) <= length flushes)%nat ->
  exists w' new,
    run (Some p) (readable rs reads ++ writable ws flushes) (mkWorld h tr)
      = Ok (tt, w')
    /\ trace w' = tr ++ new
    /\ accepted new = concat (complete_lines (delivered reads))
    /\ heap w' = <[p := set_rcvdBytes (Some (unterminated (delivered reads))) c]> h
    /\ Forall is_line (complete_lines (delivered reads))
    /\ concat (complete_lines (delivered reads)) ++ unterminated (delivered reads)
       = delivered reads
    /\ (linefeed ∉ unterminated (delivered reads)).
Proof.
  intros H Hopen Hreads Hflushes Hmany.
  destruct (run_readable p rs ws t reads Hreads c h tr [] H Hopen)
    as (new1 & buf1 & Hrun1 & Hacc1 & HJ1).
  simpl in Hacc1.
  assert (Hcount : (count_lf buf1 <= length flushes)%nat).
  { rewrite length_complete_lines, <- Hacc1, count_lf_app in Hmany. lia. }
  destruct (run_writable p rs ws t flushes Hflushes
              (set_rcvdBytes (Some buf1) c)
              (<[p := set_rcvdBytes (Some buf1) c]> h)
              (tr ++ new1) buf1)
    as (new2 & buf2 & Hrun2 & Hacc2 & Hno & HJ2);
    [apply lookup_insert_eq | by eapply is_open_set_rcvdBytes | done |].
  assert (Hends : ends_in_lf (accepted new1 ++ accepted new2)).
  { destruct (HJ2 (accepted new1)) as [?|Hin]; [|done|done].
    rewrite <- (app_nil_l (accepted new1)). apply HJ1. left. by left. }
  destruct (split_lines_unique _ _ Hends Hno) as [Hlines Hrest].
  assert (Hall : (accepted new1 ++ accepted new2) ++ buf2 = delivered reads)
    by (by rewrite <- app_assoc, Hacc2).
  rewrite Hall in Hlines, Hrest.
  eexists _, (new1 ++ new2).
  split; [|split; [|split; [|split; [|split; [|split]]]]].
  - rewrite run_app. erewrite bind_run by exact Hrun1. exact Hrun2.
  - cbn [trace]. by rewrite app_assoc.
  - by rewrite accepted_app.
  - cbn [heap]. by rewrite insert_insert_eq, set_rcvdBytes_twice, Hrest.
  - apply complete_lines_are_lines.
  - apply split_lines_concat.
  - apply unterminated_no_lf.
Qed.

Lemma echo_correctness_witness :
  let reads := [(read_of hi_there 1%Q true, accept_upto 2%Q 2)] in
  let flushes := [accept_all 3%Q; accept_all 4%Q] in
  exists w' new,
    run (Some 1%positive)
      (readable 1%positive reads ++ writable 2%positive flushes)
      (mkWorld (sample_heap []) []) = Ok (tt, w')
    /\ trace w' = [] ++ new
    /\ accepted new = concat (complete_lines (delivered reads))
    /\ heap w' = <[1%positive :=
                    set_rcvdBytes (Some (unterminated (delivered reads)))
                      (sample_context [])]> (sample_heap [])
    /\ Forall is_line (complete_lines (delivered reads))
    /\ concat (complete_lines (delivered reads)) ++ unterminated (delivered reads)
       = delivered reads
    /\ (linefeed ∉ unterminated (delivered reads)).
Proof.
  apply (echo_correctness 1%positive (sample_context [])
           1%positive 2%positive 3%positive (sample_heap []) []
           [(read_of hi_there 1%Q true, accept_upto 2%Q 2)]
           [accept_all 3%Q; accept_all 4%Q]).
  - reflexivity.
  - repeat split.
  - repeat constructor. intros len. simpl. lia.
  - repeat constructor.
  - vm_compute. lia.
Defined.

(** The sample context and the sample trace are what [EchoContextCreate]
    followed by [EchoContextOpen] builds: the count is 4, one reference for
    the creator and one for each of the three registrations. *)
Example create_then_open :
  (context <- EchoContextCreate None 7
                (mkCreateOutcome (Some 1%positive) (Some 1%positive)
                   (Some 2%positive) true) ;;
   EchoContextOpen context
     (mkOpenOutcome true true true true 0%Q (Some 3%positive)))
    (mkWorld ∅ [])
  = Ok (true, mkWorld (sample_heap []) sample_trace)
  /\ registered_count (sample_context []) sample_trace = 3
  /\ fire_date 3%positive sample_trace = Some 60%Q.
Proof. by vm_compute. Qed.

(** The scenarios of the specification, run on the sample context. *)

(** ["hi\nthere\n"] arrives in one read, the outbound channel always ready:
    two writes, ["hi\n"] during the readable event and ["there\n"] on the
    next writable event. *)
Example scenario_two_lines :
  exists w',
    run (Some 1%positive)
      (readable 1%positive [(read_of hi_there 1%Q true, accept_all 1%Q)]
       ++ writable 2%positive [accept_all 2%Q; accept_all 3%Q])
      (mkWorld (sample_heap []) []) = Ok (tt, w')
    /\ writes (trace w') = [(2%positive, hi); (2%positive, there)]
    /\ accepted (trace w') = hi_there
    /\ (_rcvdBytes <$> heap w' !! 1%positive) = Some (Some []).
Proof. eexists. split; [vm_compute; reflexivity|]. by vm_compute. Qed.

(** ["abc"] arrives without terminator, then the stream ends: the context is
    closed, nothing is written. *)
Example scenario_end_of_stream :
  exists w',
    run (Some 1%positive)
      [ReadStreamEvent (Some 1%positive) kCFStreamEventHasBytesAvailable
         (read_of abc 1%Q true) (accept_all 1%Q);
       ReadStreamEvent (Some 1%positive) kCFStreamEventEndEncountered
         (read_of [] 2%Q true) (accept_all 2%Q)]
      (mkWorld (sample_heap []) sample_trace) = Ok (tt, w')
    /\ writes (trace w') = []
    /\ heap w' !! 1%positive = None.
Proof. eexists. split; [vm_compute; reflexivity|]. by vm_compute. Qed.

(** The outbound channel accepts two bytes per call: ["ok\n"] leaves as
    ["ok"] and then ["\n"], nothing lost, nothing twice. *)
Example scenario_short_writes :
  exists w',
    run (Some 1%positive)
      (writable 2%positive [accept_upto 1%Q 2; accept_upto 2%Q 2])
      (mkWorld (sample_heap [x6f; x6b; x0a]) []) = Ok (tt, w')
    /\ writes (trace w') = [(2%positive, [x6f; x6b; x0a]); (2%positive, [x0a])]
    /\ accepted (trace w') = [x6f; x6b; x0a]
    /\ (_rcvdBytes <$> heap w' !! 1%positive) = Some (Some []).
Proof. eexists. split; [vm_compute; reflexivity|]. by vm_compute. Qed.

(** * Further properties of the code *)

(** ** [EchoContextOpen] *)

Lemma EchoContextRetain_live p c h tr :
  h !! p = Some c ->
  EchoContextRetain (Some p) (mkWorld h tr)
  = Ok (Some p,
        mkWorld (<[p := set_retainCount (UInt32_wrap (_retainCount c + 1)) c]> h) tr).
Proof. intros H. unfold EchoContextRetain. by repeat step. Qed.

Lemma retain_callback_live p c h tr :
  h !! p = Some c ->
  retain_callback (Some p) (mkWorld h tr)
  = Ok (tt,
        mkWorld (<[p := set_retainCount (UInt32_wrap (_retainCount c + 1)) c]> h) tr).
Proof.
  intros H. unfold retain_callback.
  by erewrite bind_run by (by apply EchoContextRetain_live).
Qed.

(** A client set on an object that carries none: one retain when the call
    succeeds, nothing otherwise. *)
Lemma register_live o e result p c h tr :
  h !! p = Some c -> registered o tr = false ->
  register retain_callback EchoContextRelease o e result (Some p) (mkWorld h tr)
  = Ok (tt,
        mkWorld (if result
                 then <[p := set_retainCount (UInt32_wrap (_retainCount c + 1)) c]> h
                 else h)
                (tr ++ [e])).
Proof.
  intros H Hreg. unfold register. rewrite is_registered_run, Hreg. step.
  destruct result; [|done].
  step. by apply retain_callback_live.
Qed.

Lemma EchoContextOpen_succeeds p c rs ws t h tr now :
  h !! p = Some c -> _inStream c = Some rs -> _outStream c = Some ws ->
  registered (ReadStreamObj rs) tr = false ->
  registered (WriteStreamObj ws) tr = false ->
  EchoContextOpen (Some p) (mkOpenOutcome true true true true now (Some t))
    (mkWorld h tr)
  = Ok (true,
        mkWorld (<[p := set_timer (Some t)
                          (set_retainCount
                             (UInt32_wrap
                                (UInt32_wrap (UInt32_wrap (_retainCount c + 1) + 1) + 1))
                             c)]> h)
          (tr ++ [CFReadStreamSetClient rs kReadEvents (Some p) true;
                  CFWriteStreamSetClient ws kWriteEvents (Some p) true;
                  CFReadStreamScheduleWithRunLoop rs;
                  CFWriteStreamScheduleWithRunLoop ws;
                  CFReadStreamOpen rs; CFWriteStreamOpen ws;
                  CFRunLoopTimerCreate (now + kTimeOutInSeconds)%Q
                    (Some p) (Some t);
                  CFRunLoopAddTimer t])).
Proof.
  intros H Hi Ho Hri Hro.
  unfold EchoContextOpen.
  cbn [op_didSetRead op_didSetWrite op_openedRead op_openedWrite op_now
       op_timer negb].
  step. rewrite Hi. fields. step.
  erewrite bind_run by (by apply register_live).
  step. rewrite Ho. fields. step.
  erewrite bind_run;
    [ | apply register_live;
        [apply lookup_insert_eq | by rewrite registered_app] ].
  rewrite insert_insert_eq, <- app_assoc. fields. simpl app. repeat step.
  erewrite bind_run by (apply retain_callback_live; apply lookup_insert_eq).
  rewrite insert_insert_eq. fields. repeat step.
  by destruct c.
Qed.

(** After a successful open the three objects carry a registration. *)
Lemma registered_count_opened c' rs ws t p tr now :
  _inStream c' = Some rs -> _outStream c' = Some ws -> _timer c' = Some t ->
  registered_count c'
    (tr ++ [CFReadStreamSetClient rs kReadEvents (Some p) true;
            CFWriteStreamSetClient ws kWriteEvents (Some p) true;
            CFReadStreamScheduleWithRunLoop rs;
            CFWriteStreamScheduleWithRunLoop ws;
            CFReadStreamOpen rs; CFWriteStreamOpen ws;
            CFRunLoopTimerCreate (now + kTimeOutInSeconds)%Q (Some p) (Some t);
            CFRunLoopAddTimer t]) = 3.
Proof.
  intros Hi Ho Ht.
  unfold registered_count, in_registered, out_registered, timer_registered.
  rewrite Hi, Ho, Ht, !registered_app. simpl.
  by rewrite !bool_decide_true.
Qed.

(** X1. A successful open: when the context has both streams, neither yet
    with a client, and every step succeeds, [EchoContextOpen] returns true
    after registering the context as client for the read events on the
    read stream and for the write events on the write stream, scheduling
    and opening both streams, and creating and adding a timer due at the
    current time plus [kTimeOutInSeconds].  Each of the three
    registrations retains the context, so the count rises by 3; the timer
    field is set, nothing else changes, and the context is open. *)
Theorem open_success p c rs ws t h tr o :
  h !! p = Some c -> _inStream c = Some rs -> _outStream c = Some ws ->
  registered (ReadStreamObj rs) tr = false ->
  registered (WriteStreamObj ws) tr = false ->
  0 <= _retainCount c -> _retainCount c + 3 < 2 ^ 32 ->
  op_didSetRead o = true -> op_didSetWrite o = true ->
  op_openedRead o = true -> op_openedWrite o = true ->
  op_timer o = Some t ->
  exists w' c',
    EchoContextOpen (Some p) o (mkWorld h tr) = Ok (true, w')
    /\ heap w' = <[p := c']> h
    /\ trace w'
       = tr ++ [CFReadStreamSetClient rs kReadEvents (Some p) true;
                CFWriteStreamSetClient ws kWriteEvents (Some p) true;
                CFReadStreamScheduleWithRunLoop rs;
                CFWriteStreamScheduleWithRunLoop ws;
                CFReadStreamOpen rs; CFWriteStreamOpen ws;
                CFRunLoopTimerCreate (op_now o + kTimeOutInSeconds)%Q
                  (Some p) (Some t);
                CFRunLoopAddTimer t]
    /\ _retainCount c' = _retainCount c + 3
    /\ registered_count c' (trace w') = 3
    /\ _timer c' = Some t /\ _inStream c' = Some rs /\ _outStream c' = Some ws
    /\ _rcvdBytes c' = _rcvdBytes c /\ _alloc c' = _alloc c
    /\ fire_date t (trace w') = Some (op_now o + kTimeOutInSeconds)%Q
    /\ (forall buf, _rcvdBytes c = Some buf -> is_open c' rs ws t buf).
Proof.
  intros H Hi Ho Hri Hro Hn0 Hn3 H1 H2 H3 H4 Ht.
  destruct o as [b1 b2 b3 b4 now ot]. simpl in *. subst.
  eexists _, _. split; [by apply EchoContextOpen_succeeds|]. cbn [heap trace].
  split; [done|]. split; [done|].
  split.
  { fields. unfold UInt32_wrap.
    rewrite (Z.mod_small (_retainCount c + 1)) by lia.
    rewrite (Z.mod_small (_retainCount c + 1 + 1)) by lia.
    rewrite Z.mod_small by lia. lia. }
  split; [apply registered_count_opened; by destruct c|].
  split; [by destruct c|]. split; [by destruct c|]. split; [by destruct c|].
  split; [by destruct c|]. split; [by destruct c|].
  split.
  - rewrite fire_date_app. simpl. by rewrite bool_decide_true.
  - intros buf Hb. unfold is_open. destruct c; simpl in *. by subst.
Qed.

Lemma open_success_witness :
  exists w' c',
    EchoContextOpen (Some 1%positive)
      (mkOpenOutcome true true true true 5%Q (Some 3%positive))
      (mkWorld {[ 1%positive := set_retainCount 1 (set_timer None (sample_context hi)) ]}
         [])
      = Ok (true, w')
    /\ heap w' = <[1%positive := c']>
                   {[ 1%positive := set_retainCount 1 (set_timer None (sample_context hi)) ]}
    /\ trace w'
       = [] ++ [CFReadStreamSetClient 1 kReadEvents (Some 1%positive) true;
                CFWriteStreamSetClient 2 kWriteEvents (Some 1%positive) true;
                CFReadStreamScheduleWithRunLoop 1;
                CFWriteStreamScheduleWithRunLoop 2;
                CFReadStreamOpen 1; CFWriteStreamOpen 2;
                CFRunLoopTimerCreate (5 + kTimeOutInSeconds)%Q
                  (Some 1%positive) (Some 3%positive);
                CFRunLoopAddTimer 3]
    /\ _retainCount c'
       = _retainCount (set_retainCount 1 (set_timer None (sample_context hi))) + 3
    /\ registered_count c' (trace w') = 3
    /\ _timer c' = Some 3%positive /\ _inStream c' = Some 1%positive
    /\ _outStream c' = Some 2%positive
    /\ _rcvdBytes c'
       = _rcvdBytes (set_retainCount 1 (set_timer None (sample_context hi)))
    /\ _alloc c' = _alloc (set_retainCount 1 (set_timer None (sample_context hi)))
    /\ fire_date 3%positive (trace w') = Some (5 + kTimeOutInSeconds)%Q
    /\ (forall buf,
          _rcvdBytes (set_retainCount 1 (set_timer None (sample_context hi)))
          = Some buf ->
          is_open c' 1 2 3 buf).
Proof.
  apply (open_success 1%positive
           (set_retainCount 1 (set_timer None (sample_context hi)))
           1%positive 2%positive 3%positive
           {[ 1%positive := set_retainCount 1 (set_timer None (sample_context hi)) ]}
           [] (mkOpenOutcome true true true true 5%Q (Some 3%positive)));
    try reflexivity; simpl; lia.
Defined.

(** X2. A failed open: when the context has both streams, neither yet with
    a client, and no timer, and some step fails (a client cannot be set, a
    stream does not open, or the timer is not created), [EchoContextOpen]
    returns false having closed the context.  The registrations made before
    the failure are ended again, each giving back the reference it had
    taken, so the count is what it was; both streams are released, the
    three fields are NULL, and no timer has been added to the run loop. *)
Theorem open_failure_closes p c rs ws h tr o :
  h !! p = Some c -> _inStream c = Some rs -> _outStream c = Some ws ->
  _timer c = None ->
  registered (ReadStreamObj rs) tr = false ->
  registered (WriteStreamObj ws) tr = false ->
  0 < _retainCount c -> _retainCount c + 2 < 2 ^ 32 ->
  open_succeeds o = false ->
  exists w' c' new,
    EchoContextOpen (Some p) o (mkWorld h tr) = Ok (false, w')
    /\ heap w' = <[p := c']> h
    /\ trace w' = tr ++ new
    /\ _retainCount c' = _retainCount c
    /\ _inStream c' = None /\ _outStream c' = None /\ _timer c' = None
    /\ _rcvdBytes c' = _rcvdBytes c /\ _alloc c' = _alloc c
    /\ registered (ReadStreamObj rs) (trace w') = false
    /\ registered (WriteStreamObj ws) (trace w') = false
    /\ CFRelease (ReadStreamObj rs) ∈ new
    /\ CFRelease (WriteStreamObj ws) ∈ new
    /\ (forall t, CFRunLoopAddTimer t ∉ new).
Proof.
  intros H Hi Ho Ht Hri Hro Hn0 Hn2 Hfail.
  (* closing after [k] registrations were made *)
  assert (Hclose : forall (pre : list Call) k h',
            h' = <[p := set_retainCount (_retainCount c + k) c]> h ->
            0 <= k <= 2 ->
            registered_count c (tr ++ pre) = k ->
            Forall (fun e => forall t, e <> CFRunLoopAddTimer t) pre ->
            exists w' c' new,
              (EchoContextClose (Some p) ;; ret false) (mkWorld h' (tr ++ pre))
              = Ok (false, w')
              /\ heap w' = <[p := c']> h
              /\ trace w' = tr ++ new
              /\ _retainCount c' = _retainCount c
              /\ _inStream c' = None /\ _outStream c' = None /\ _timer c' = None
              /\ _rcvdBytes c' = _rcvdBytes c /\ _alloc c' = _alloc c
              /\ registered (ReadStreamObj rs) (trace w') = false
              /\ registered (WriteStreamObj ws) (trace w') = false
              /\ CFRelease (ReadStreamObj rs) ∈ new
              /\ CFRelease (WriteStreamObj ws) ∈ new
              /\ (forall t, CFRunLoopAddTimer t ∉ new)).
  { intros pre k h' -> Hk Hreg Hpre.
    set (c1 := set_retainCount (_retainCount c + k) c).
    assert (Hreg1 : registered_count c1 (tr ++ pre) = k) by (by destruct c).
    destruct (close_safe_owned c1 (tr ++ pre)) as [Hsafe Hcount];
      [rewrite Hreg1; subst c1; fields; lia|].
    eexists _, _, (pre ++ close_calls c).
    erewrite bind_run;
      [ | apply EchoContextClose_live; [apply lookup_insert_eq | done] ].
    rewrite insert_insert_eq, Hcount, Hreg1.
    replace (close_calls c1) with (close_calls c) by (by destruct c).
    split; [done|]. cbn [heap trace].
    split; [done|]. split; [by rewrite app_assoc|].
    split; [subst c1; destruct c; simpl; lia|].
    split; [by destruct c|]. split; [by destruct c|]. split; [by destruct c|].
    split; [by destruct c|]. split; [by destruct c|].
    assert (Hcc : close_calls c
                  = [CFReadStreamSetClient rs 0 None true;
                     CFReadStreamUnscheduleFromRunLoop rs;
                     CFReadStreamClose rs; CFRelease (ReadStreamObj rs);
                     CFWriteStreamSetClient ws 0 None true;
                     CFWriteStreamUnscheduleFromRunLoop ws;
                     CFWriteStreamClose ws; CFRelease (WriteStreamObj ws)])
      by (unfold close_calls; by rewrite Hi, Ho, Ht).
    rewrite Hcc.
    split; [rewrite !registered_app; simpl; by rewrite bool_decide_true|].
    split; [rewrite !registered_app; simpl; by rewrite bool_decide_true|].
    split; [rewrite !elem_of_app, !elem_of_cons; tauto|].
    split; [rewrite !elem_of_app, !elem_of_cons; tauto|].
    intros t0 Hel. apply elem_of_app in Hel as [Hel|Hel].
    - rewrite Forall_forall in Hpre. by apply (Hpre _ Hel t0).
    - repeat (apply elem_of_cons in Hel as [?|Hel]; [done|]).
      by apply not_elem_of_nil in Hel. }
  assert (Hcount : forall pre bi bo,
            fold_left (registration_step (ReadStreamObj rs)) pre false = bi ->
            fold_left (registration_step (WriteStreamObj ws)) pre false = bo ->
            registered_count c (tr ++ pre) = Z.b2z bi + Z.b2z bo).
  { intros pre bi bo Hbi Hbo.
    unfold registered_count, in_registered, out_registered, timer_registered.
    rewrite Hi, Ho, Ht, !registered_app, Hri, Hro, Hbi, Hbo. simpl. lia. }
  assert (Hw1 : UInt32_wrap (_retainCount c + 1) = _retainCount c + 1)
    by (apply Z.mod_small; lia).
  assert (Hw2 : UInt32_wrap (_retainCount c + 1 + 1) = _retainCount c + 2)
    by (unfold UInt32_wrap; rewrite Z.mod_small by lia; lia).
  unfold open_succeeds in Hfail. unfold EchoContextOpen.
  step. rewrite Hi. fields. step.
  erewrite bind_run by (by apply register_live).
  destruct (op_didSetRead o); cbn [negb andb] in *.
  2:{ apply (Hclose _ 0);
        [ by rewrite Z.add_0_r, set_retainCount_id, insert_id
        | lia | | by repeat constructor ].
      apply (Hcount _ false false); simpl; by rewrite ?bool_decide_true. }
  rewrite Hw1.
  step. rewrite Ho. fields. step.
  erewrite bind_run;
    [ | apply register_live;
        [apply lookup_insert_eq | by rewrite registered_app] ].
  fields. rewrite Hw2, <- app_assoc. simpl app.
  destruct (op_didSetWrite o); cbn [negb andb] in *.
  2:{ apply (Hclose _ 1); [done | lia | | by repeat constructor].
      apply (Hcount _ true false); simpl; by rewrite ?bool_decide_true. }
  rewrite insert_insert_eq, set_retainCount_twice.
  assert (Hc2 : forall pre,
            fold_left (registration_step (ReadStreamObj rs)) pre true = true ->
            fold_left (registration_step (WriteStreamObj ws)) pre true = true ->
            registered_count c
              (tr ++ CFReadStreamSetClient rs kReadEvents (Some p) true
                  :: CFWriteStreamSetClient ws kWriteEvents (Some p) true :: pre)
            = Z.b2z true + Z.b2z true).
  { intros pre Hbi Hbo. apply Hcount; simpl; by rewrite !bool_decide_true. }
  repeat step.
  destruct (op_openedRead o); cbn [negb andb] in *.
  2:{ apply (Hclose _ 2); [done | lia | by apply Hc2 | by repeat constructor]. }
  repeat step.
  destruct (op_openedWrite o); cbn [negb andb] in *.
  2:{ apply (Hclose _ 2); [done | lia | by apply Hc2 | by repeat constructor]. }
  repeat step.
  destruct (op_timer o) as [t0|]; [by rewrite bool_decide_true in Hfail|].
  repeat step.
  replace (set_timer None (set_retainCount (_retainCount c + 2) c))
    with (set_retainCount (_retainCount c + 2) c)
    by (destruct c; simpl in *; by subst).
  apply (Hclose _ 2); [done | lia | by apply Hc2 | by repeat constructor].
Qed.

Lemma open_failure_closes_witness :
  exists w' c' new,
    EchoContextOpen (Some 1%positive)
      (mkOpenOutcome true true true false 5%Q (Some 3%positive))
      (mkWorld {[ 1%positive := set_retainCount 1 (set_timer None (sample_context hi)) ]}
         [])
      = Ok (false, w')
    /\ heap w' = <[1%positive := c']>
                   {[ 1%positive := set_retainCount 1 (set_timer None (sample_context hi)) ]}
    /\ trace w' = [] ++ new
    /\ _retainCount c'
       = _retainCount (set_retainCount 1 (set_timer None (sample_context hi)))
    /\ _inStream c' = None /\ _outStream c' = None /\ _timer c' = None
    /\ _rcvdBytes c'
       = _rcvdBytes (set_retainCount 1 (set_timer None (sample_context hi)))
    /\ _alloc c' = _alloc (set_retainCount 1 (set_timer None (sample_context hi)))
    /\ registered (ReadStreamObj 1) (trace w') = false
    /\ registered (WriteStreamObj 2) (trace w') = false
    /\ CFRelease (ReadStreamObj 1) ∈ new
    /\ CFRelease (WriteStreamObj 2) ∈ new
    /\ (forall t, CFRunLoopAddTimer t ∉ new).
Proof.
  apply (open_failure_closes 1%positive
           (set_retainCount 1 (set_timer None (sample_context hi)))
           1%positive 2%positive
           {[ 1%positive := set_retainCount 1 (set_timer None (sample_context hi)) ]}
           [] (mkOpenOutcome true true true false 5%Q (Some 3%positive)));
    try reflexivity; simpl; lia.
Defined.

(** ** Ownership *)

(** X3. Retain then release is the identity: on a live context whose count
    is a non-zero [UInt32] (the maximum included, where the retain wraps to
    0 and the release wraps back), a retain followed by a release leaves
    the heap and the trace exactly as they were. *)
Theorem retain_release_round_trip p c h tr :
  h !! p = Some c -> 0 < _retainCount c < 2 ^ 32 ->
  (EchoContextRetain (Some p) ;; EchoContextRelease (Some p)) (mkWorld h tr)
  = Ok (tt, mkWorld h tr).
Proof.
  intros H Hn.
  erewrite bind_run by (by apply EchoContextRetain_live).
  set (n := _retainCount c) in *.
  assert (Hback : UInt32_wrap (UInt32_wrap (n + 1) - 1) = n).
  { unfold UInt32_wrap.
    destruct (decide (n = 2 ^ 32 - 1)) as [->|Hne]; [done|].
    rewrite (Z.mod_small (n + 1)) by lia.
    replace (n + 1 - 1) with n by lia. apply Z.mod_small. lia. }
  erewrite EchoContextRelease_shared;
    [ | apply lookup_insert_eq | fields; rewrite Hback; lia ].
  fields. rewrite Hback, insert_insert_eq, set_retainCount_twice.
  subst n. by rewrite set_retainCount_id, insert_id.
Qed.

Lemma retain_release_round_trip_witness :
  (EchoContextRetain (Some 1%positive) ;; EchoContextRelease (Some 1%positive))
    (mkWorld (sample_heap hi) [])
  = Ok (tt, mkWorld (sample_heap hi) []).
Proof.
  apply (retain_release_round_trip 1%positive (sample_context hi)
           (sample_heap hi) []).
  - reflexivity.
  - simpl. lia.
Defined.

(** X4. The last release of a context that was not closed first: when the
    count is 1 and the timer is still set, [EchoContextRelease] invalidates
    and releases the timer itself, leaves the field set, and then calls
    [EchoContextClose], which invalidates and releases the same timer
    again: the timer is released twice before the context is deallocated,
    whatever registrations the context still carries. *)
Theorem final_release_releases_timer_twice p c t h tr :
  h !! p = Some c -> _retainCount c = 1 -> _timer c = Some t ->
  exists new,
    EchoContextRelease (Some p) (mkWorld h tr)
      = Ok (tt, mkWorld (delete p h) (tr ++ new))
    /\ timer_releases t new = 2%nat
    /\ timer_invalidations t new = 2%nat
    /\ CFAllocatorDeallocate (_alloc c) p ∈ new.
Proof.
  intros H Hn Ht.
  exists (dispose_calls p c).
  split; [apply EchoContextRelease_final; [done | by rewrite Hn]|].
  unfold dispose_calls, close_calls. rewrite Ht.
  split; [|split].
  - destruct c as [[a|] n t' [i|] [o|] [b|]]; simpl;
      by rewrite !(bool_decide_true (t = t)).
  - destruct c as [[a|] n t' [i|] [o|] [b|]]; simpl;
      by rewrite !(bool_decide_true (t = t)).
  - rewrite !elem_of_app, !elem_of_cons. tauto.
Qed.

Lemma final_release_releases_timer_twice_witness :
  exists new,
    EchoContextRelease (Some 1%positive)
      (mkWorld {[ 1%positive := set_retainCount 1 (sample_context hi) ]} sample_trace)
      = Ok (tt, mkWorld (delete 1%positive
                           {[ 1%positive := set_retainCount 1 (sample_context hi) ]})
                        (sample_trace ++ new))
    /\ timer_releases 3%positive new = 2%nat
    /\ timer_invalidations 3%positive new = 2%nat
    /\ CFAllocatorDeallocate (_alloc (set_retainCount 1 (sample_context hi)))
         1%positive ∈ new.
Proof.
  apply (final_release_releases_timer_twice 1%positive
           (set_retainCount 1 (sample_context hi)) 3%positive
           {[ 1%positive := set_retainCount 1 (sample_context hi) ]} sample_trace);
    reflexivity.
Defined.

Lemma ReadStreamCallBack_EndEncountered p c s h tr r o :
  h !! p = Some c -> _inStream c = s ->
  _ReadStreamCallBack s kCFStreamEventEndEncountered (Some p) r o (mkWorld h tr)
  = (EchoContextClose (Some p) ;; EchoContextRelease (Some p)) (mkWorld h tr).
Proof.
  intros H <-. unfold _ReadStreamCallBack. step.
  by rewrite bool_decide_true.
Qed.

(** X5. A whole connection gives everything back: creating a context at a
    fresh address, opening it and handling the end of its stream, every
    step of the collaborator succeeding, ends with the heap as it was
    before the creation.  The three registrations raise the count to 4 and
    give their references back when the context is closed, so that the
    release of the handler is the last.  The resources released are, up to
    order, exactly those acquired (memory, allocator reference, streams,
    buffer and timer, each once), and nothing is written to the outbound
    stream. *)
Theorem connection_lifecycle_balanced alloc nativeSocket p rs ws t now h tr :
  h !! p = None ->
  exists new,
    (context <- EchoContextCreate alloc nativeSocket
                  (mkCreateOutcome (Some p) (Some rs) (Some ws) true) ;;
     EchoContextOpen context (mkOpenOutcome true true true true now (Some t)) ;;
     _ReadStreamCallBack (Some rs) kCFStreamEventEndEncountered context
       (mkReadOutcome 0 [] now false) (mkWriteOutcome now (fun _ => 0)))
      (mkWorld h tr)
    = Ok (tt, mkWorld h (tr ++ new))
    /\ concat (map acquired new) ≡ₚ concat (map released new)
    /\ concat (map acquired new)
       = [Memory p] ++ of_ref (fun a => Object (AllocatorObj a)) alloc
         ++ [Object (ReadStreamObj rs); Object (WriteStreamObj ws);
             Object (DataObj p); Object (TimerObj t)]
    /\ writes new = [].
Proof.
  intros Hfresh. unfold EchoContextCreate.
  cbn [cr_memory cr_inStream cr_outStream cr_data].
  rewrite !bind_assoc. step. rewrite !bind_assoc, memset0_run.
  assert (Hz : (<[p := zeroed]> h) !! p = Some zeroed) by apply lookup_insert_eq.
  unfold zeroed in *.
  destruct alloc as [a|]; repeat step; unfold EchoContextRetain;
    repeat step; change (UInt32_wrap (0 + 1)) with 1.
  all: erewrite bind_run;
    [ | eapply EchoContextOpen_succeeds;
        [ apply lookup_insert_eq | reflexivity | reflexivity
        | rewrite registered_app; simpl; by rewrite bool_decide_true
        | rewrite registered_app; simpl; by rewrite bool_decide_true ] ].
  all: rewrite insert_insert_eq, <- app_assoc; simpl app; fields.
  all: change (UInt32_wrap (UInt32_wrap (UInt32_wrap (1 + 1) + 1) + 1)) with 4.
  all: erewrite ReadStreamCallBack_EndEncountered;
    [ | apply lookup_insert_eq | reflexivity ].
  all: match goal with
       | |- context [mkWorld (<[_ := ?c]> _) ?tr0] =>
           assert (Hreg : registered_count c tr0 = 3)
             by (unfold registered_count, in_registered, out_registered,
                   timer_registered; fields; rewrite !registered_app; simpl;
                 by rewrite !bool_decide_true);
           destruct (close_safe_owned c tr0) as [Hsafe Hcount];
             [rewrite Hreg; fields; lia|];
           rewrite Hreg in Hcount; simpl in Hcount
       end.
  all: erewrite close_then_release_live; [ | apply lookup_insert_eq | done ].
  all: rewrite Hcount, bool_decide_false by (by vm_compute).
  all: rewrite delete_insert_id, <- app_assoc by done.
  all: eexists; split; [reflexivity|].
  all: unfold dispose_calls, close_calls, timer_calls, closed; simpl.
  all: split; [|done].
  - apply (Permutation_cons_app [_; _; _; _] [_]). simpl.
    apply (Permutation_cons_app [_; _; _; _] []). simpl.
    by do 2 apply perm_skip; apply perm_swap.
  - apply (Permutation_cons_app [_; _; _; _] []). simpl.
    by do 2 apply perm_skip; apply perm_swap.
Qed.

Lemma connection_lifecycle_balanced_witness :
  exists new,
    (context <- EchoContextCreate None 7
                  (mkCreateOutcome (Some 1%positive) (Some 1%positive)
                     (Some 2%positive) true) ;;
     EchoContextOpen context
       (mkOpenOutcome true true true true 5%Q (Some 3%positive)) ;;
     _ReadStreamCallBack (Some 1%positive) kCFStreamEventEndEncountered context
       (mkReadOutcome 0 [] 5%Q false) (mkWriteOutcome 5%Q (fun _ => 0)))
      (mkWorld ∅ [])
    = Ok (tt, mkWorld ∅ ([] ++ new))
    /\ concat (map acquired new) ≡ₚ concat (map released new)
    /\ concat (map acquired new)
       = [Memory 1%positive] ++ of_ref (fun a => Object (AllocatorObj a)) None
         ++ [Object (ReadStreamObj 1); Object (WriteStreamObj 2);
             Object (DataObj 1%positive); Object (TimerObj 3)]
    /\ writes new = [].
Proof.
  apply (connection_lifecycle_balanced None 7 1%positive 1%positive 2%positive
           3%positive 5%Q ∅ []).
  reflexivity.
Defined.

(** ** The callbacks *)

(** X6. The callbacks check who is calling: an event delivered for a stream
    or a timer other than the one the live context holds fails the
    assertion of the callback, whatever the kind of the event, before any
    handler runs. *)
Theorem callbacks_assert_owner p c h tr type r o :
  h !! p = Some c ->
  (forall s, s <> _inStream c ->
     _ReadStreamCallBack s type (Some p) r o (mkWorld h tr) = AssertFailed)
  /\ (forall s, s <> _outStream c ->
        _WriteStreamCallBack s type (Some p) o (mkWorld h tr) = AssertFailed)
  /\ (forall t, t <> _timer c ->
        _TimerCallBack t (Some p) (mkWorld h tr) = AssertFailed).
Proof.
  intros H. split; [|split]; intros s Hs.
  - unfold _ReadStreamCallBack. step. by rewrite bool_decide_false.
  - unfold _WriteStreamCallBack. step. by rewrite bool_decide_false.
  - unfold _TimerCallBack. step. by rewrite bool_decide_false.
Qed.

Lemma callbacks_assert_owner_witness :
  (forall s, s <> _inStream (sample_context hi) ->
     _ReadStreamCallBack s kCFStreamEventHasBytesAvailable (Some 1%positive)
       (read_of hi 1%Q true) (accept_all 1%Q)
       (mkWorld (sample_heap hi) []) = AssertFailed)
  /\ (forall s, s <> _outStream (sample_context hi) ->
        _WriteStreamCallBack s kCFStreamEventHasBytesAvailable (Some 1%positive)
          (accept_all 1%Q) (mkWorld (sample_heap hi) []) = AssertFailed)
  /\ (forall t, t <> _timer (sample_context hi) ->
        _TimerCallBack t (Some 1%positive) (mkWorld (sample_heap hi) [])
        = AssertFailed).
Proof.
  apply (callbacks_assert_owner 1%positive (sample_context hi) (sample_heap hi) []
           kCFStreamEventHasBytesAvailable (read_of hi 1%Q true) (accept_all 1%Q)).
  reflexivity.
Defined.

(** X7. Event kinds without a case are ignored: on a live context the read
    callback does nothing for any kind other than [HasBytesAvailable],
    [EndEncountered] and [ErrorOccurred], and the write callback does
    nothing for any kind other than [CanAcceptBytes] and [ErrorOccurred];
    in particular an [EndEncountered] delivered for the write stream does
    not close the connection. *)
Theorem other_event_kinds_ignored p c h tr type r o :
  h !! p = Some c ->
  (type <> kCFStreamEventHasBytesAvailable ->
   type <> kCFStreamEventEndEncountered ->
   type <> kCFStreamEventErrorOccurred ->
   _ReadStreamCallBack (_inStream c) type (Some p) r o (mkWorld h tr)
   = Ok (tt, mkWorld h tr))
  /\ (type <> kCFStreamEventCanAcceptBytes ->
      type <> kCFStreamEventErrorOccurred ->
      _WriteStreamCallBack (_outStream c) type (Some p) o (mkWorld h tr)
      = Ok (tt, mkWorld h tr))
  /\ _WriteStreamCallBack (_outStream c) kCFStreamEventEndEncountered (Some p) o
       (mkWorld h tr) = Ok (tt, mkWorld h tr).
Proof.
  intros H. split; [|split].
  - intros H1 H2 H3. unfold _ReadStreamCallBack. step.
    rewrite bool_decide_true by done. by destruct type.
  - intros H1 H2. unfold _WriteStreamCallBack. step.
    rewrite bool_decide_true by done. by destruct type.
  - unfold _WriteStreamCallBack. step. by rewrite bool_decide_true.
Qed.

Lemma other_event_kinds_ignored_witness :
  (kCFStreamEventOpenCompleted <> kCFStreamEventHasBytesAvailable ->
   kCFStreamEventOpenCompleted <> kCFStreamEventEndEncountered ->
   kCFStreamEventOpenCompleted <> kCFStreamEventErrorOccurred ->
   _ReadStreamCallBack (_inStream (sample_context hi)) kCFStreamEventOpenCompleted
     (Some 1%positive) (read_of hi 1%Q true) (accept_all 1%Q)
     (mkWorld (sample_heap hi) [])
   = Ok (tt, mkWorld (sample_heap hi) []))
  /\ (kCFStreamEventOpenCompleted <> kCFStreamEventCanAcceptBytes ->
      kCFStreamEventOpenCompleted <> kCFStreamEventErrorOccurred ->
      _WriteStreamCallBack (_outStream (sample_context hi))
        kCFStreamEventOpenCompleted (Some 1%positive) (accept_all 1%Q)
        (mkWorld (sample_heap hi) [])
      = Ok (tt, mkWorld (sample_heap hi) []))
  /\ _WriteStreamCallBack (_outStream (sample_context hi))
       kCFStreamEventEndEncountered (Some 1%positive) (accept_all 1%Q)
       (mkWorld (sample_heap hi) []) = Ok (tt, mkWorld (sample_heap hi) []).
Proof.
  apply (other_event_kinds_ignored 1%positive (sample_context hi)
           (sample_heap hi) [] kCFStreamEventOpenCompleted
           (read_of hi 1%Q true) (accept_all 1%Q)).
  reflexivity.
Defined.

(** ** The timer after a teardown *)

Lemma fire_date_close_calls t c d :
  _timer c = Some t ->
  fold_left (fire_date_step t) (close_calls c) d = None.
Proof.
  intros Ht. unfold close_calls. rewrite Ht.
  destruct (_inStream c), (_outStream c); simpl;
    by rewrite (bool_decide_true (t = t)).
Qed.

Lemma fire_date_dispose_closed t p c :
  fold_left (fire_date_step t) (dispose_calls p (closed c)) None = None.
Proof. by destruct c as [[?|] ? ? ? ? [?|]]. Qed.

Lemma registered_timer_close_calls t c b :
  _timer c = Some t ->
  fold_left (registration_step (TimerObj t)) (close_calls c) b = false.
Proof.
  intros Ht. unfold close_calls, timer_calls. rewrite Ht.
  destruct (_inStream c), (_outStream c); simpl;
    by rewrite (bool_decide_true (t = t)).
Qed.

Lemma registered_timer_dispose_closed t p c :
  fold_left (registration_step (TimerObj t)) (dispose_calls p (closed c)) false
  = false.
Proof. by destruct c as [[?|] ? ? ? ? [?|]]. Qed.

(** X8. No timer survives a teardown: on a live context whose timer is set
    and whose count exceeds the number of its registrations (the handler
    runs on a reference of its own), an [EndEncountered] event and the
    firing of the timer both return, and afterwards the timer has been
    invalidated and nothing has rescheduled it, whatever its fire date was
    before and whether or not the context is disposed of. *)
Theorem teardown_invalidates_timer p c t h tr r o :
  h !! p = Some c -> _timer c = Some t ->
  registered_count c tr < _retainCount c < 2 ^ 32 ->
  exists w',
    _ReadStreamCallBack (_inStream c) kCFStreamEventEndEncountered (Some p) r o
      (mkWorld h tr) = Ok (tt, w')
    /\ _TimerCallBack (Some t) (Some p) (mkWorld h tr) = Ok (tt, w')
    /\ fire_date t (trace w') = None
    /\ timer_registered c (trace w') = false.
Proof.
  intros H Ht Hn.
  destruct (close_safe_owned c tr Hn) as [Hsafe _].
  pose proof (close_then_release_live p c h tr H Hsafe) as Hrun.
  eexists. split; [|split; [|split]].
  - unfold _ReadStreamCallBack. step.
    rewrite bool_decide_true by done. exact Hrun.
  - unfold _TimerCallBack. step. rewrite Ht.
    rewrite bool_decide_true by done. exact Hrun.
  - case_bool_decide; cbn [trace]; rewrite fire_date_app.
    + by apply fire_date_close_calls.
    + rewrite fold_left_app, (fire_date_close_calls t c _ Ht).
      apply fire_date_dispose_closed.
  - unfold timer_registered. rewrite Ht.
    case_bool_decide; cbn [trace]; rewrite ?app_assoc, !registered_app.
    + by apply registered_timer_close_calls.
    + rewrite (registered_timer_close_calls t c _ Ht).
      apply registered_timer_dispose_closed.
Qed.

Lemma teardown_invalidates_timer_witness :
  exists w',
    _ReadStreamCallBack (_inStream (sample_context hi))
      kCFStreamEventEndEncountered (Some 1%positive)
      (read_of [] 9%Q true) (accept_all 9%Q)
      (mkWorld (sample_heap hi) sample_trace)
      = Ok (tt, w')
    /\ _TimerCallBack (Some 3%positive) (Some 1%positive)
         (mkWorld (sample_heap hi) sample_trace)
       = Ok (tt, w')
    /\ fire_date 3%positive (trace w') = None
    /\ timer_registered (sample_context hi) (trace w') = false.
Proof.
  apply (teardown_invalidates_timer 1%positive (sample_context hi) 3%positive
           (sample_heap hi) sample_trace
           (read_of [] 9%Q true) (accept_all 9%Q));
    [reflexivity | reflexivity | vm_compute; split; reflexivity].
Defined.

(** ** Closing without a reference of one's own *)

Lemma assign_freed p g h tr :
  h !! p = None -> assign (Some p) g (mkWorld h tr) = Fault.
Proof. intros H. unfold assign, bind, deref. simpl. by rewrite H. Qed.

(** X17. The caller of [EchoContextClose] has to hold a reference of its
    own: on a live context whose two streams and timer all carry a
    registration and whose count is 3, the references of the registrations
    and no other, the release callbacks made while the streams are
    unregistered bring the count to 1, the one made by the invalidation of
    the timer disposes of the context, and [EchoContextClose] then stores
    into the memory that was deallocated. *)
Theorem close_without_own_reference_faults p c rs ws t h tr :
  h !! p = Some c ->
  _inStream c = Some rs -> _outStream c = Some ws -> _timer c = Some t ->
  registered (ReadStreamObj rs) tr = true ->
  registered (WriteStreamObj ws) tr = true ->
  registered (TimerObj t) tr = true ->
  _retainCount c = 3 ->
  EchoContextClose (Some p) (mkWorld h tr) = Fault.
Proof.
  intros H Hi Ho Ht Hri Hro Hrt Hn.
  destruct c as [al n tm i o b]. simpl in Hi, Ho, Ht, Hn. subst n tm i o.
  unfold EchoContextClose, EchoContextClose_with. step.
  rewrite ?bind_assoc.
  erewrite bind_run;
    [ | apply unregister_live;
        [apply EchoContextRelease_decrements | exact H | by vm_compute] ].
  rewrite Hri. cbn [dec_if]. fields. change (UInt32_wrap (3 - 1)) with 2.
  repeat step. rewrite ?bind_assoc.
  erewrite bind_run;
    [ | apply unregister_live;
        [apply EchoContextRelease_decrements | apply lookup_insert_eq
        | by vm_compute] ].
  rewrite registered_app. simpl fold_left. rewrite Hro. cbn [dec_if]. fields.
  change (UInt32_wrap (2 - 1)) with 1.
  rewrite insert_insert_eq.
  repeat step. rewrite ?bind_assoc.
  unfold unregister. rewrite ?bind_assoc, is_registered_run, ?bind_assoc.
  rewrite registered_app. simpl fold_left. rewrite Hrt. step.
  erewrite bind_run;
    [ | apply EchoContextRelease_final; [apply lookup_insert_eq | by vm_compute] ].
  step. apply assign_freed, lookup_delete_eq.
Qed.

Lemma close_without_own_reference_faults_witness :
  EchoContextClose (Some 1%positive)
    (mkWorld {[ 1%positive := set_retainCount 3 (sample_context hi) ]}
       sample_trace)
  = Fault.
Proof.
  apply (close_without_own_reference_faults 1%positive
           (set_retainCount 3 (sample_context hi)) 1%positive 2%positive
           3%positive {[ 1%positive := set_retainCount 3 (sample_context hi) ]}
           sample_trace);
    reflexivity.
Defined.

(** ** Reading *)

(** X9. A read that is not followed by a flush: when the read returns no
    byte (zero or a negative count) the handler only resets the timer, does
    not ask the outbound channel anything and leaves the context as it is;
    when bytes were read but the outbound channel cannot accept bytes, they
    are appended to the end of the receive buffer and nothing is written. *)
Theorem read_without_flush p c rs ws t buf h tr r o :
  h !! p = Some c -> is_open c rs ws t buf ->
  (rd_bytesRead r <= 0 ->
   _EchoContextHandleHasBytesAvailable (Some p) r o (mkWorld h tr)
   = Ok (tt, mkWorld h
               (tr ++ [CFReadStreamRead rs sizeof_buffer (rd_bytesRead r);
                       CFRunLoopTimerSetNextFireDate t
                         (rd_now r + kTimeOutInSeconds)%Q])))
  /\ (rd_bytesRead r > 0 -> rd_canAccept r = false ->
      _EchoContextHandleHasBytesAvailable (Some p) r o (mkWorld h tr)
      = Ok (tt, mkWorld
                  (<[p := set_rcvdBytes
                            (Some (buf ++ take (Z.to_nat (rd_bytesRead r))
                                            (rd_buffer r))) c]> h)
                  (tr ++ [CFReadStreamRead rs sizeof_buffer (rd_bytesRead r);
                          CFRunLoopTimerSetNextFireDate t
                            (rd_now r + kTimeOutInSeconds)%Q;
                          CFWriteStreamCanAcceptBytes ws false]))).
Proof.
  intros H (Hi & Ho & Ht & Hb). split.
  - intros Hz. unfold _EchoContextHandleHasBytesAvailable.
    step. rewrite Hi. fields. repeat step. rewrite Ht. fields. repeat step.
    by rewrite bool_decide_false by lia.
  - intros Hpos Hcan. unfold _EchoContextHandleHasBytesAvailable.
    step. rewrite Hi. fields. repeat step. rewrite Ht. fields. repeat step.
    rewrite bool_decide_true by done.
    unfold CFDataAppendBytes. rewrite bind_assoc. step. rewrite Hb. fields.
    repeat step. rewrite Ho. fields. repeat step. by rewrite Hcan.
Qed.

Lemma read_without_flush_witness :
  (rd_bytesRead (read_of abc 4%Q false) <= 0 ->
   _EchoContextHandleHasBytesAvailable (Some 1%positive) (read_of abc 4%Q false)
     (accept_all 4%Q) (mkWorld (sample_heap hi) [])
   = Ok (tt, mkWorld (sample_heap hi)
               ([] ++ [CFReadStreamRead 1 sizeof_buffer
                         (rd_bytesRead (read_of abc 4%Q false));
                       CFRunLoopTimerSetNextFireDate 3
                         (rd_now (read_of abc 4%Q false) + kTimeOutInSeconds)%Q])))
  /\ (rd_bytesRead (read_of abc 4%Q false) > 0 ->
      rd_canAccept (read_of abc 4%Q false) = false ->
      _EchoContextHandleHasBytesAvailable (Some 1%positive) (read_of abc 4%Q false)
        (accept_all 4%Q) (mkWorld (sample_heap hi) [])
      = Ok (tt, mkWorld
                  (<[1%positive :=
                      set_rcvdBytes
                        (Some (hi ++ take (Z.to_nat (rd_bytesRead (read_of abc 4%Q false)))
                                       (rd_buffer (read_of abc 4%Q false))))
                        (sample_context hi)]> (sample_heap hi))
                  ([] ++ [CFReadStreamRead 1 sizeof_buffer
                            (rd_bytesRead (read_of abc 4%Q false));
                          CFRunLoopTimerSetNextFireDate 3
                            (rd_now (read_of abc 4%Q false) + kTimeOutInSeconds)%Q;
                          CFWriteStreamCanAcceptBytes 2 false]))).
Proof.
  apply (read_without_flush 1%positive (sample_context hi) 1%positive 2%positive
           3%positive hi (sample_heap hi) [] (read_of abc 4%Q false)
           (accept_all 4%Q)).
  - reflexivity.
  - repeat split.
Defined.

Lemma memchr_app_r (buf data : list byte) k :
  linefeed ∉ buf ->
  memchr data linefeed (length data) = Some k ->
  memchr (buf ++ data) linefeed (length (buf ++ data)) = Some (length buf + k)%nat.
Proof.
  intros Hn Hk. apply memchr_Some in Hk as [Hk Hj]. apply memchr_Some. split.
  - rewrite lookup_app_r by lia.
    by replace (length buf + k - length buf)%nat with k by lia.
  - intros j Hlt Hlook. destruct (decide (j < length buf)%nat) as [Hin|Hout].
    + rewrite lookup_app_l in Hlook by done.
      apply Hn. by eapply list_elem_of_lookup_2.
    + rewrite lookup_app_r in Hlook by lia. apply (Hj (j - length buf)%nat); [lia|done].
Qed.

Lemma writes_read_calls rs t ws buf r o :
  writes (read_calls rs t ws buf r o)
  = if bool_decide (rd_bytesRead r > 0) && rd_canAccept r
    then writes (flush_calls t ws (buf ++ delivered_by r) o)
    else [].
Proof.
  unfold read_calls. simpl. case_bool_decide; [|done].
  by destruct (rd_canAccept r).
Qed.

(** X10. A line is assembled across reads: when the receive buffer holds
    bytes without linefeed and a read, with the outbound channel ready,
    brings bytes whose first linefeed is at offset [k], the flush of that
    same event offers in one write the buffered bytes followed by the first
    [k + 1] bytes just read. *)
Theorem line_completed_by_read p c rs ws t buf h tr r o k :
  h !! p = Some c -> is_open c rs ws t buf -> write_ok o ->
  linefeed ∉ buf -> rd_bytesRead r > 0 -> rd_canAccept r = true ->
  delivered_by r !! k = Some linefeed ->
  (forall j, (j < k)%nat -> delivered_by r !! j <> Some linefeed) ->
  exists w' new,
    _ReadStreamCallBack (Some rs) kCFStreamEventHasBytesAvailable (Some p) r o
      (mkWorld h tr) = Ok (tt, w')
    /\ trace w' = tr ++ new
    /\ writes new = [(ws, buf ++ take (k + 1) (delivered_by r))].
Proof.
  intros H Hopen Hw Hn Hpos Hcan Hk Hj.
  eexists _, (read_calls rs t ws buf r o).
  erewrite ReadStreamCallBack_HasBytesAvailable by done.
  split; [by eapply HasBytesAvailable_live|]. split; [done|].
  rewrite writes_read_calls, bool_decide_true, Hcan by done. cbn [andb].
  rewrite writes_flush_calls.
  rewrite (memchr_app_r buf (delivered_by r) k Hn) by (by apply memchr_Some).
  rewrite take_app. do 3 f_equal.
  - apply take_ge. lia.
  - f_equal. lia.
Qed.

Lemma line_completed_by_read_witness :
  exists w' new,
    _ReadStreamCallBack (Some 1%positive) kCFStreamEventHasBytesAvailable
      (Some 1%positive) (read_of [x0a; x61] 2%Q true) (accept_all 2%Q)
      (mkWorld (sample_heap abc) []) = Ok (tt, w')
    /\ trace w' = [] ++ new
    /\ writes new
       = [(2%positive,
           abc ++ take (0 + 1) (delivered_by (read_of [x0a; x61] 2%Q true)))].
Proof.
  apply (line_completed_by_read 1%positive (sample_context abc) 1%positive
           2%positive 3%positive abc (sample_heap abc) []
           (read_of [x0a; x61] 2%Q true) (accept_all 2%Q) 0%nat).
  - reflexivity.
  - repeat split.
  - intros len. simpl. lia.
  - apply (bool_decide_unpack _). vm_compute. exact I.
  - reflexivity.
  - reflexivity.
  - reflexivity.
  - intros j Hj. lia.
Defined.

(** ** Any sequence of readable and writable events *)

Lemma take_first_line_is_line (buf : list byte) k :
  memchr buf linefeed (length buf) = Some k -> is_line (take (k + 1) buf).
Proof.
  intros Hm. apply memchr_Some in Hm as [Hk Hj].
  exists (take k buf). split; [by apply take_first_line|].
  intros Hin. apply list_elem_of_lookup in Hin as [j Hlook].
  pose proof (lookup_lt_Some _ _ _ Hlook) as Hlt.
  rewrite length_take in Hlt.
  rewrite lookup_take_lt in Hlook by lia. apply (Hj j); [lia | done].
Qed.

Lemma flush_writes_lines t ws buf o :
  Forall (fun w => w.1 = ws /\ is_line w.2) (writes (flush_calls t ws buf o)).
Proof.
  rewrite writes_flush_calls.
  destruct (memchr buf linefeed (length buf)) as [k|] eqn:Hm; [|constructor].
  constructor; [|constructor]. split; [done|].
  by apply take_first_line_is_line.
Qed.

Lemma flush_without_linefeed t ws buf o :
  linefeed ∉ buf ->
  writes (flush_calls t ws buf o) = [] /\ flush_rest buf o = buf.
Proof.
  intros Hn. apply memchr_None in Hn.
  rewrite writes_flush_calls. unfold flush_rest. by rewrite Hn.
Qed.

(** What one event of the connection does. *)
Lemma io_event_summary p c rs ws t buf h tr e :
  h !! p = Some c -> is_open c rs ws t buf -> io_event rs ws e ->
  exists new buf',
    dispatch (Some p) e (mkWorld h tr)
      = Ok (tt, mkWorld (<[p := set_rcvdBytes (Some buf') c]> h) (tr ++ new))
    /\ accepted new ++ buf' = buf ++ delivered_in [e]
    /\ Forall (fun w => w.1 = ws /\ is_line w.2) (writes new)
    /\ (linefeed ∉ buf -> linefeed ∉ delivered_in [e] ->
        writes new = [] /\ buf' = buf ++ delivered_in [e]).
Proof.
  intros H Hopen He.
  destruct e as [s [] r o|s [] o|]; try done; destruct He as [-> Hw];
    unfold delivered_in; simpl; rewrite ?app_nil_r.
  - exists (read_calls rs t ws buf r o), (read_rest buf r o).
    split; [|split; [|split]].
    + erewrite ReadStreamCallBack_HasBytesAvailable by done.
      by eapply HasBytesAvailable_live.
    + by apply read_summary.
    + rewrite writes_read_calls.
      destruct (_ && _); [apply flush_writes_lines | constructor].
    + intros Hn Hd. rewrite writes_read_calls. unfold read_rest.
      destruct (_ && _); [|done].
      apply flush_without_linefeed. rewrite elem_of_app. tauto.
  - exists (flush_calls t ws buf o), (flush_rest buf o).
    split; [|split; [|split]].
    + erewrite WriteStreamCallBack_CanAcceptBytes by done.
      by eapply CanAcceptBytes_live.
    + by apply flush_conserves.
    + apply flush_writes_lines.
    + intros Hn _. by apply flush_without_linefeed.
Qed.

Lemma delivered_in_cons e es :
  delivered_in (e :: es) = delivered_in [e] ++ delivered_in es.
Proof. unfold delivered_in. simpl. by rewrite app_nil_r. Qed.

(** The events of a connection, in any order. *)
Lemma run_io p rs ws t es :
  Forall (io_event rs ws) es ->
  forall c h tr buf,
    h !! p = Some c -> is_open c rs ws t buf ->
    exists new buf',
      run (Some p) es (mkWorld h tr)
        = Ok (tt, mkWorld (<[p := set_rcvdBytes (Some buf') c]> h) (tr ++ new))
      /\ accepted new ++ buf' = buf ++ delivered_in es
      /\ Forall (fun w => w.1 = ws /\ is_line w.2) (writes new)
      /\ (linefeed ∉ buf -> linefeed ∉ delivered_in es ->
          writes new = [] /\ buf' = buf ++ delivered_in es).
Proof.
  induction 1 as [|e es He _ IH]; intros c h tr buf H Hopen.
  - exists [], buf. pose proof Hopen as (_ & _ & _ & Hb).
    simpl. unfold ret, delivered_in. simpl.
    rewrite !app_nil_r, (set_rcvdBytes_id _ _ Hb), insert_id by done.
    repeat split; done || constructor.
  - destruct (io_event_summary p c rs ws t buf h tr e H Hopen He)
      as (new1 & buf1 & Hrun1 & Hacc1 & Hl1 & Hno1).
    destruct (IH (set_rcvdBytes (Some buf1) c)
                 (<[p := set_rcvdBytes (Some buf1) c]> h) (tr ++ new1) buf1)
      as (new2 & buf2 & Hrun2 & Hacc2 & Hl2 & Hno2);
      [apply lookup_insert_eq | by eapply is_open_set_rcvdBytes |].
    exists (new1 ++ new2), buf2. rewrite delivered_in_cons.
    split; [|split; [|split]].
    + simpl. erewrite bind_run by exact Hrun1. rewrite Hrun2.
      by rewrite insert_insert_eq, set_rcvdBytes_twice, app_assoc.
    + by rewrite accepted_app, <- app_assoc, Hacc2, !app_assoc, Hacc1.
    + rewrite writes_app. by apply Forall_app.
    + intros Hn Hd. rewrite elem_of_app in Hd.
      destruct Hno1 as [Hw1 ->]; [done | tauto |].
      destruct Hno2 as [Hw2 ->]; [rewrite elem_of_app; tauto | tauto |].
      by rewrite writes_app, Hw1, Hw2, app_assoc.
Qed.

(** X11. No byte is lost, duplicated or reordered: for readable and
    writable events in any order and number on an open context, each write
    reporting no more than it was offered, the bytes accepted by the
    outbound channel followed by the bytes left in the receive buffer are
    the bytes that were in the buffer followed by the bytes delivered. *)
Theorem io_conserves_bytes p c rs ws t buf h tr es :
  h !! p = Some c -> is_open c rs ws t buf -> Forall (io_event rs ws) es ->
  exists new buf',
    run (Some p) es (mkWorld h tr)
      = Ok (tt, mkWorld (<[p := set_rcvdBytes (Some buf') c]> h) (tr ++ new))
    /\ accepted new ++ buf' = buf ++ delivered_in es.
Proof.
  intros H Hopen Hes.
  destruct (run_io p rs ws t es Hes c h tr buf H Hopen)
    as (new & buf' & Hrun & Hacc & _).
  by exists new, buf'.
Qed.

Lemma io_conserves_bytes_witness :
  let es := [WriteStreamEvent (Some 2%positive) kCFStreamEventCanAcceptBytes
               (accept_upto 1%Q 1);
             ReadStreamEvent (Some 1%positive) kCFStreamEventHasBytesAvailable
               (read_of there 2%Q true) (accept_upto 2%Q 1);
             WriteStreamEvent (Some 2%positive) kCFStreamEventCanAcceptBytes
               (accept_all 3%Q)] in
  exists new buf',
    run (Some 1%positive) es (mkWorld (sample_heap hi) [])
      = Ok (tt, mkWorld (<[1%positive := set_rcvdBytes (Some buf') (sample_context hi)]>
                           (sample_heap hi)) ([] ++ new))
    /\ accepted new ++ buf' = hi ++ delivered_in es.
Proof.
  apply (io_conserves_bytes 1%positive (sample_context hi) 1%positive 2%positive
           3%positive hi (sample_heap hi) []).
  - reflexivity.
  - repeat split.
  - repeat constructor; intros len; simpl; lia.
Defined.

(** X12. Every write is one line: in any sequence of readable and writable
    events on an open context, each write attempt is made on the write
    stream of the context and offers bytes without linefeed followed by one
    linefeed, never a partial line without its terminator and never bytes
    of two lines. *)
Theorem every_write_offers_one_line p c rs ws t buf h tr es :
  h !! p = Some c -> is_open c rs ws t buf -> Forall (io_event rs ws) es ->
  exists w' new,
    run (Some p) es (mkWorld h tr) = Ok (tt, w')
    /\ trace w' = tr ++ new
    /\ Forall (fun w => w.1 = ws /\ is_line w.2) (writes new).
Proof.
  intros H Hopen Hes.
  destruct (run_io p rs ws t es Hes c h tr buf H Hopen)
    as (new & buf' & Hrun & _ & Hl & _).
  by eexists _, new.
Qed.

Lemma every_write_offers_one_line_witness :
  let es := [ReadStreamEvent (Some 1%positive) kCFStreamEventHasBytesAvailable
               (read_of hi_there 2%Q true) (accept_upto 2%Q 2);
             WriteStreamEvent (Some 2%positive) kCFStreamEventCanAcceptBytes
               (accept_all 3%Q)] in
  exists w' new,
    run (Some 1%positive) es (mkWorld (sample_heap abc) []) = Ok (tt, w')
    /\ trace w' = [] ++ new
    /\ Forall (fun w => w.1 = 2%positive /\ is_line w.2) (writes new).
Proof.
  apply (every_write_offers_one_line 1%positive (sample_context abc) 1%positive
           2%positive 3%positive abc (sample_heap abc) []).
  - reflexivity.
  - repeat split.
  - repeat constructor; intros len; simpl; lia.
Defined.

(** X13. Nothing is written before a terminator arrives: while neither the
    receive buffer nor the bytes delivered hold a linefeed, readable and
    writable events in any order and number make no write attempt, and the
    buffer keeps every byte delivered, in order, whatever their number. *)
Theorem no_terminator_no_write p c rs ws t buf h tr es :
  h !! p = Some c -> is_open c rs ws t buf -> Forall (io_event rs ws) es ->
  linefeed ∉ buf -> linefeed ∉ delivered_in es ->
  exists new,
    run (Some p) es (mkWorld h tr)
      = Ok (tt, mkWorld (<[p := set_rcvdBytes (Some (buf ++ delivered_in es)) c]> h)
                        (tr ++ new))
    /\ writes new = [].
Proof.
  intros H Hopen Hes Hn Hd.
  destruct (run_io p rs ws t es Hes c h tr buf H Hopen)
    as (new & buf' & Hrun & _ & _ & Hno).
  destruct (Hno Hn Hd) as [Hw ->]. by exists new.
Qed.

Lemma no_terminator_no_write_witness :
  let es := [ReadStreamEvent (Some 1%positive) kCFStreamEventHasBytesAvailable
               (read_of abc 2%Q true) (accept_all 2%Q);
             WriteStreamEvent (Some 2%positive) kCFStreamEventCanAcceptBytes
               (accept_all 3%Q)] in
  exists new,
    run (Some 1%positive) es (mkWorld (sample_heap abc) [])
      = Ok (tt, mkWorld (<[1%positive :=
                            set_rcvdBytes (Some (abc ++ delivered_in es))
                              (sample_context abc)]> (sample_heap abc))
                        ([] ++ new))
    /\ writes new = [].
Proof.
  apply (no_terminator_no_write 1%positive (sample_context abc) 1%positive
           2%positive 3%positive abc (sample_heap abc) []).
  - reflexivity.
  - repeat split.
  - repeat constructor; intros len; simpl; lia.
  - apply (bool_decide_unpack _). vm_compute. exact I.
  - apply (bool_decide_unpack _). vm_compute. exact I.
Defined.

(** ** Writable events on which everything is accepted *)

(** The first linefeed ends the first complete line. *)
Lemma split_lines_first (buf : list byte) k :
  memchr buf linefeed (length buf) = Some k ->
  split_lines buf
  = (take (S k) buf :: complete_lines (drop (S k) buf), unterminated (drop (S k) buf)).
Proof.
  revert k. induction buf as [|b buf IH]; intros k; [done|].
  simpl memchr. rewrite split_lines_cons.
  case_bool_decide as Hb.
  - by intros [= <-].
  - intros Hm. apply fmap_Some in Hm as (k' & Hk' & ->).
    specialize (IH k' Hk'). unfold complete_lines, unterminated in *.
    by rewrite IH.
Qed.

Lemma flush_all_first_line t ws buf o l ls :
  accepts_all o -> complete_lines buf = l :: ls ->
  writes (flush_calls t ws buf o) = [(ws, l)]
  /\ accepted (flush_calls t ws buf o) = l
  /\ complete_lines (flush_rest buf o) = ls
  /\ unterminated (flush_rest buf o) = unterminated buf.
Proof.
  intros Ha Hl.
  destruct (memchr buf linefeed (length buf)) as [k|] eqn:Hm.
  2:{ apply memchr_None in Hm. unfold complete_lines in Hl.
      by rewrite (split_lines_no_lf buf Hm) in Hl. }
  pose proof (split_lines_first buf k Hm) as Hs.
  unfold complete_lines, unterminated in *. rewrite Hs in Hl |- *.
  simpl in Hl. injection Hl as <- <-.
  rewrite writes_flush_calls, accepted_flush_calls
    by (by apply accepts_all_write_ok).
  unfold flush_rest. rewrite Hm, Ha, bool_decide_true by lia.
  replace (Z.to_nat (Z.of_nat k + 1)) with (S k) by lia.
  by replace (k + 1)%nat with (S k) by lia.
Qed.

Lemma flush_all_no_line t ws buf o :
  complete_lines buf = [] ->
  writes (flush_calls t ws buf o) = [] /\ flush_rest buf o = buf.
Proof.
  intros Hl. apply flush_without_linefeed. apply count_lf_zero.
  by rewrite <- length_complete_lines, Hl.
Qed.

(** X14. A flush on which the channel accepts everything sends the first
    line and only removes it: when the receive buffer holds the complete
    lines [l :: ls], one [CanAcceptBytes] event makes one write of exactly
    [l], which the channel accepts, and leaves a buffer whose complete
    lines are [ls] and whose unterminated rest is unchanged. *)
Theorem flush_all_sends_first_line p c rs ws t buf h tr o l ls :
  h !! p = Some c -> is_open c rs ws t buf -> accepts_all o ->
  complete_lines buf = l :: ls ->
  exists new buf',
    _WriteStreamCallBack (Some ws) kCFStreamEventCanAcceptBytes (Some p) o
      (mkWorld h tr)
      = Ok (tt, mkWorld (<[p := set_rcvdBytes (Some buf') c]> h) (tr ++ new))
    /\ writes new = [(ws, l)]
    /\ accepted new = l
    /\ complete_lines buf' = ls
    /\ unterminated buf' = unterminated buf.
Proof.
  intros H Hopen Ha Hl.
  exists (flush_calls t ws buf o), (flush_rest buf o).
  split; [|by apply flush_all_first_line].
  erewrite WriteStreamCallBack_CanAcceptBytes by done.
  eapply CanAcceptBytes_live; [done | done | by apply accepts_all_write_ok].
Qed.

Lemma flush_all_sends_first_line_witness :
  exists new buf',
    _WriteStreamCallBack (Some 2%positive) kCFStreamEventCanAcceptBytes
      (Some 1%positive) (accept_all 3%Q) (mkWorld (sample_heap (hi_there ++ abc)) [])
      = Ok (tt, mkWorld (<[1%positive :=
                            set_rcvdBytes (Some buf') (sample_context (hi_there ++ abc))]>
                           (sample_heap (hi_there ++ abc))) ([] ++ new))
    /\ writes new = [(2%positive, hi)]
    /\ accepted new = hi
    /\ complete_lines buf' = [there]
    /\ unterminated buf' = unterminated (hi_there ++ abc).
Proof.
  apply (flush_all_sends_first_line 1%positive (sample_context (hi_there ++ abc))
           1%positive 2%positive 3%positive (hi_there ++ abc)
           (sample_heap (hi_there ++ abc)) [] (accept_all 3%Q) hi [there]).
  - reflexivity.
  - repeat split.
  - intros len. reflexivity.
  - reflexivity.
Defined.

(** X15. One line per writable event, in order: [n] [CanAcceptBytes] events
    on which the channel accepts everything make exactly one write for each
    of the first [n] complete lines of the receive buffer, in the order of
    the buffer, each write offering exactly that line; the other lines and
    the unterminated rest stay in the buffer, and events beyond the number
    of lines write nothing. *)
Theorem writable_events_send_lines_in_order p rs ws t flushes :
  Forall accepts_all flushes ->
  forall c h tr buf,
    h !! p = Some c -> is_open c rs ws t buf ->
    exists new buf',
      run (Some p) (writable ws flushes) (mkWorld h tr)
        = Ok (tt, mkWorld (<[p := set_rcvdBytes (Some buf') c]> h) (tr ++ new))
      /\ writes new
         = map (fun l => (ws, l)) (take (length flushes) (complete_lines buf))
      /\ complete_lines buf' = drop (length flushes) (complete_lines buf)
      /\ unterminated buf' = unterminated buf.
Proof.
  induction 1 as [|o flushes Ha _ IH]; intros c h tr buf H Hopen.
  - exists [], buf. pose proof Hopen as (_ & _ & _ & Hb).
    simpl. unfold ret.
    by rewrite !app_nil_r, (set_rcvdBytes_id _ _ Hb), insert_id.
  - destruct (IH (set_rcvdBytes (Some (flush_rest buf o)) c)
                 (<[p := set_rcvdBytes (Some (flush_rest buf o)) c]> h)
                 (tr ++ flush_calls t ws buf o) (flush_rest buf o))
      as (new & buf' & Hrun & Hw & Hc & Hu);
      [apply lookup_insert_eq | by eapply is_open_set_rcvdBytes |].
    exists (flush_calls t ws buf o ++ new), buf'.
    split.
    { cbn [writable map run dispatch].
      erewrite bind_run;
        [ | erewrite WriteStreamCallBack_CanAcceptBytes by done;
            eapply CanAcceptBytes_live;
            [done | done | by apply accepts_all_write_ok] ].
      fold (writable ws flushes). rewrite Hrun.
      by rewrite insert_insert_eq, set_rcvdBytes_twice, app_assoc. }
    rewrite writes_app, Hw, Hc, Hu. cbn [length].
    destruct (complete_lines buf) as [|l ls] eqn:Hl.
    + destruct (flush_all_no_line t ws buf o Hl) as [-> ->].
      rewrite Hl. by rewrite take_nil, drop_nil.
    + destruct (flush_all_first_line t ws buf o l ls Ha Hl)
        as (-> & _ & -> & ->).
      done.
Qed.

Lemma writable_events_send_lines_in_order_witness :
  exists new buf',
    run (Some 1%positive) (writable 2%positive [accept_all 1%Q; accept_all 2%Q;
                                                 accept_all 3%Q])
      (mkWorld (sample_heap (hi_there ++ abc)) [])
      = Ok (tt, mkWorld (<[1%positive :=
                            set_rcvdBytes (Some buf') (sample_context (hi_there ++ abc))]>
                           (sample_heap (hi_there ++ abc))) ([] ++ new))
    /\ writes new
       = map (fun l => (2%positive, l))
           (take (length [accept_all 1%Q; accept_all 2%Q; accept_all 3%Q])
              (complete_lines (hi_there ++ abc)))
    /\ complete_lines buf'
       = drop (length [accept_all 1%Q; accept_all 2%Q; accept_all 3%Q])
           (complete_lines (hi_there ++ abc))
    /\ unterminated buf' = unterminated (hi_there ++ abc).
Proof.
  apply (writable_events_send_lines_in_order 1%positive 1%positive 2%positive
           3%positive [accept_all 1%Q; accept_all 2%Q; accept_all 3%Q]).
  - repeat constructor.
  - reflexivity.
  - repeat split.
Defined.

(** ** Error events *)

(** X16. What an error event does depends on the count: delivered for the
    read stream or for the write stream of a live context, an
    [ErrorOccurred] event only decrements the count, with no call to the
    collaborator, while another owner remains; when the count was 1 it
    disposes of the context, closing and releasing both streams on the way.
    In neither case is anything written. *)
Theorem error_event_releases p c rs ws t buf h tr r o :
  h !! p = Some c -> is_open c rs ws t buf ->
  exists w',
    _ReadStreamCallBack (Some rs) kCFStreamEventErrorOccurred (Some p) r o
      (mkWorld h tr) = Ok (tt, w')
    /\ _WriteStreamCallBack (Some ws) kCFStreamEventErrorOccurred (Some p) o
         (mkWorld h tr) = Ok (tt, w')
    /\ (UInt32_wrap (_retainCount c - 1) > 0 ->
        w' = mkWorld (<[p := set_retainCount (UInt32_wrap (_retainCount c - 1)) c]> h)
               tr)
    /\ (_retainCount c = 1 ->
        exists new,
          w' = mkWorld (delete p h) (tr ++ new)
          /\ CFReadStreamClose rs ∈ new /\ CFWriteStreamClose ws ∈ new
          /\ CFAllocatorDeallocate (_alloc c) p ∈ new
          /\ writes new = []).
Proof.
  intros H (Hi & Ho & Ht & Hb).
  assert (Hr : _ReadStreamCallBack (Some rs) kCFStreamEventErrorOccurred (Some p)
                 r o (mkWorld h tr)
               = EchoContextRelease (Some p) (mkWorld h tr)).
  { unfold _ReadStreamCallBack. step. rewrite Hi. by rewrite bool_decide_true. }
  assert (Hw : _WriteStreamCallBack (Some ws) kCFStreamEventErrorOccurred (Some p)
                 o (mkWorld h tr)
               = EchoContextRelease (Some p) (mkWorld h tr)).
  { unfold _WriteStreamCallBack. step. rewrite Ho. by rewrite bool_decide_true. }
  rewrite Hr, Hw.
  destruct (decide (UInt32_wrap (_retainCount c - 1) > 0)) as [Hpos|Hlast].
  - eexists. rewrite (EchoContextRelease_shared p c h tr H Hpos).
    split; [done|]. split; [done|]. split; [done|].
    intros Hone. rewrite Hone in Hpos. by vm_compute in Hpos.
  - eexists. rewrite (EchoContextRelease_final p c h tr H Hlast).
    split; [done|]. split; [done|]. split; [done|].
    intros _. exists (dispose_calls p c). split; [done|].
    split; [|split; [|split]]; [| | |apply writes_dispose_calls].
    all: unfold dispose_calls, close_calls; rewrite Hi, Ho.
    all: rewrite !elem_of_app, !elem_of_cons; tauto.
Qed.

Lemma error_event_releases_witness :
  exists w',
    _ReadStreamCallBack (Some 1%positive) kCFStreamEventErrorOccurred
      (Some 1%positive) (read_of [] 7%Q true) (accept_all 7%Q)
      (mkWorld {[ 1%positive := set_retainCount 1 (sample_context hi) ]} [])
      = Ok (tt, w')
    /\ _WriteStreamCallBack (Some 2%positive) kCFStreamEventErrorOccurred
         (Some 1%positive) (accept_all 7%Q)
         (mkWorld {[ 1%positive := set_retainCount 1 (sample_context hi) ]} [])
       = Ok (tt, w')
    /\ (UInt32_wrap (_retainCount (set_retainCount 1 (sample_context hi)) - 1) > 0 ->
        w' = mkWorld (<[1%positive :=
                         set_retainCount
                           (UInt32_wrap
                              (_retainCount (set_retainCount 1 (sample_context hi)) - 1))
                           (set_retainCount 1 (sample_context hi))]>
                        {[ 1%positive := set_retainCount 1 (sample_context hi) ]})
               [])
    /\ (_retainCount (set_retainCount 1 (sample_context hi)) = 1 ->
        exists new,
          w' = mkWorld (delete 1%positive
                          {[ 1%positive := set_retainCount 1 (sample_context hi) ]})
                       ([] ++ new)
          /\ CFReadStreamClose 1 ∈ new /\ CFWriteStreamClose 2 ∈ new
          /\ CFAllocatorDeallocate (_alloc (set_retainCount 1 (sample_context hi)))
               1%positive ∈ new
          /\ writes new = []).
Proof.
  apply (error_event_releases 1%positive (set_retainCount 1 (sample_context hi))
           1%positive 2%positive 3%positive hi
           {[ 1%positive := set_retainCount 1 (sample_context hi) ]} []
           (read_of [] 7%Q true) (accept_all 7%Q)).
  - reflexivity.
  - repeat split.
Defined.
